(** * websocketpp: the TLS socket policy of the asio transport

    A shallow embedding of [websocketpp/transport/asio/security/tls.hpp]:
    the [connection] and [endpoint] socket components of the namespace
    [websocketpp::transport::asio::tls_socket], and the part of the
    boost::asio reactor they talk to (a deadline timer, an ssl stream and
    the io_service's queue of completion handlers).

    Conventions of the embedding:
    - a [lib::shared_ptr] or raw pointer is an [option] ([None] is null);
      dereferencing a null pointer is the outcome [NullDeref];
    - a [lib::function] that the code tests for emptiness is an [option]
      of a Rocq function;
    - every call that leaves the component (console output, application
      handlers, timer and stream operations, the completion callback) is
      appended to a trace of [event]s, in program order;
    - member functions are computations in the monad [connection.M], which
      threads the object [*this] together with the reactor. *)

From Stdlib Require Import ZArith List String Bool Lia.
From stdpp Require Import base option gmap.
Import ListNotations.

Local Open Scope Z_scope.

(** ** Plain data *)

(** Modelled from the spec: [connection_hdl], declared in
    [common/connection_hdl.hpp], which is not among the sources: an opaque
    identity token that correlates a connection with the application's
    handlers; [None] is the empty handle. *)
Definition connection_hdl := option nat.

(** [boost::system::error_code], as the code reads it: through [value()]
    and through its conversion to [bool], which is [value() != 0]. *)
Definition boost_error := Z.

(** [boost::asio::error::operation_aborted] (ECANCELED). *)
Definition operation_aborted : boost_error := 125.

(** [boost::asio::io_service*] *)
Definition io_service_ptr := option nat.

(** An application-owned [boost::asio::ssl::context], by identity. *)
Definition ssl_context := nat.
Definition context_ptr := option ssl_context.

(** [socket_type::lowest_layer_type]: the tcp socket under the ssl stream,
    as the list of (option, value) settings applied to it so far. *)
Definition lowest_layer_type := list (nat * Z).

(** [boost::asio::ssl::stream_base::handshake_type] *)
Inductive handshake_type := client | server.

(** Modelled from the spec: [init_handler], declared in
    [transport/asio/security/base.hpp], which is not among the sources: the
    completion callback of the layer above, which receives the outcome as a
    [lib::error_code]; by identity.  tls.hpp never tests it for emptiness;
    it stands for a callable target. *)
Definition init_handler := nat.

Module socket.
Module error.
(** Modelled from the spec: the error enumeration of
    [transport/asio/security/base.hpp], which is not among the sources.
    The spec names them MissingTLSInitHandler, InvalidTLSContext,
    HandshakeTimeout and PassThroughError; these are the enumerators
    tls.hpp refers to. *)
Inductive value :=
| invalid_tls_context
| tls_handshake_timeout
| pass_through
| missing_tls_init_handler.
End error.
End socket.

Module lib.
(** [lib::error_code]: either the default-constructed code (success) or a
    code of the socket error category. *)
Inductive error_code :=
| no_error
| socket_error (e : socket.error.value).
End lib.

(** Modelled from the spec: [socket::make_error] of
    [transport/asio/security/base.hpp], which wraps an enumerator into a
    [lib::error_code] of the socket category. *)
Definition make_error (e : socket.error.value) : lib.error_code :=
  lib.socket_error e.

(** [socket_init_handler] and [tls_init_handler]: possibly empty
    [lib::function]s.  The first may change the settings of the raw socket
    it is handed by reference; the second returns a (possibly null) shared
    pointer to a TLS context. *)
Definition socket_init_handler :=
  option (connection_hdl -> lowest_layer_type -> lowest_layer_type).
Definition tls_init_handler :=
  option (connection_hdl -> context_ptr).

(** ** The reactor's objects *)

(** The two continuations the connection hands to the reactor:
    [lib::bind(&type::handle_timeout, this, callback, _1)] and
    [lib::bind(&type::handle_init, this, callback, _1)]. *)
Inductive completion_handler :=
| bind_handle_timeout (callback : init_handler)
| bind_handle_init (callback : init_handler).

(** [boost::asio::deadline_timer]: the io_service it lives on, its expiry
    (milliseconds from the moment it was set) and the wait operations that
    are outstanding on it. *)
Record deadline_timer := {
  tm_service : nat;
  tm_expiry : Z;
  tm_waits : list completion_handler
}.

(** [boost::asio::ssl::stream<tcp::socket>]: the io_service and the TLS
    context it was built from, the tcp socket below it and the handshake
    operations that are outstanding on it. *)
Record socket_type := {
  sk_service : nat;
  sk_context : ssl_context;
  sk_lowest_layer : lowest_layer_type;
  sk_handshakes : list (handshake_type * completion_handler)
}.

Definition socket_ptr := option socket_type.
Definition timer_ptr := option deadline_timer.

(** Calls that leave the component, in program order. *)
Inductive event :=
| ev_cout (line : string)
| ev_tls_init (hdl : connection_hdl)
| ev_socket_init (hdl : connection_hdl) (raw : lowest_layer_type)
| ev_expires_from_now (ms : Z)
| ev_async_wait (h : completion_handler)
| ev_async_handshake (t : handshake_type) (h : completion_handler)
| ev_cancel
| ev_shutdown
| ev_callback (callback : init_handler) (ec : lib.error_code).

(** The io_service: handlers that are ready to run, each with the error code
    it will be passed, oldest first; and the trace. *)
Record io_service := {
  ready : list (completion_handler * boost_error);
  trace : list event
}.

Inductive outcome (A : Type) :=
| Ok (a : A)
| NullDeref.
Arguments Ok {A} a.
Arguments NullDeref {A}.

(** State and failure: a member function, run in a state [S], either returns
    a value and a new state, or dereferences a null pointer. *)
Definition stateful (S A : Type) : Type := S -> outcome (A * S).

Definition ret {S A} (a : A) : stateful S A := fun w => Ok (a, w).

Definition bind {S A B} (m : stateful S A) (k : A -> stateful S B)
  : stateful S B :=
  fun w => match m w with
           | Ok (a, w') => k a w'
           | NullDeref => NullDeref
           end.

Declare Scope cpp_scope.
Delimit Scope cpp_scope with cpp.
Notation "x <- m ; k" := (bind m (fun x => k))
  (at level 20, m at level 100, k at level 200, only parsing) : cpp_scope.
Notation "m ;; k" := (bind m (fun _ => k))
  (at level 100, k at level 200, only parsing, right associativity)
  : cpp_scope.
Local Open Scope cpp_scope.

Module asio.

(** [new deadline_timer(service, seconds(0))] *)
Definition new_timer (service : nat) : deadline_timer :=
  {| tm_service := service; tm_expiry := 0; tm_waits := [] |}.

(** [new socket_type(service, context)] *)
Definition new_socket (service : nat) (ctx : ssl_context) : socket_type :=
  {| sk_service := service; sk_context := ctx;
     sk_lowest_layer := []; sk_handshakes := [] |}.

Definition aborted (hs : list completion_handler)
  : list (completion_handler * boost_error) :=
  map (fun h => (h, operation_aborted)) hs.

Definition completed (ec : boost_error) (hs : list completion_handler)
  : list (completion_handler * boost_error) :=
  map (fun h => (h, ec)) hs.

(** [deadline_timer::cancel]: every outstanding wait is completed with
    [operation_aborted]; its handler is not run here but queued.  Waits
    whose handlers are already queued are not touched. *)
Definition cancel (t : deadline_timer)
  : deadline_timer * list (completion_handler * boost_error) :=
  ({| tm_service := tm_service t; tm_expiry := tm_expiry t; tm_waits := [] |},
   aborted (tm_waits t)).

(** [deadline_timer::expires_from_now]: sets the expiry, cancelling the
    waits that are outstanding. *)
Definition expires_from_now (ms : Z) (t : deadline_timer)
  : deadline_timer * list (completion_handler * boost_error) :=
  ({| tm_service := tm_service t; tm_expiry := ms; tm_waits := [] |},
   aborted (tm_waits t)).

(** [deadline_timer::async_wait] *)
Definition async_wait (h : completion_handler) (t : deadline_timer)
  : deadline_timer :=
  {| tm_service := tm_service t; tm_expiry := tm_expiry t;
     tm_waits := tm_waits t ++ [h] |}.

(** [ssl::stream::async_handshake] *)
Definition async_handshake (ty : handshake_type) (h : completion_handler)
    (s : socket_type) : socket_type :=
  {| sk_service := sk_service s; sk_context := sk_context s;
     sk_lowest_layer := sk_lowest_layer s;
     sk_handshakes := sk_handshakes s ++ [(ty, h)] |}.

Definition set_lowest_layer (raw : lowest_layer_type) (s : socket_type)
  : socket_type :=
  {| sk_service := sk_service s; sk_context := sk_context s;
     sk_lowest_layer := raw; sk_handshakes := sk_handshakes s |}.

End asio.

(** ** [class connection] *)

Module connection.

Record type := {
  m_io_service : io_service_ptr;
  m_context : context_ptr;
  m_socket : socket_ptr;
  m_timer : timer_ptr;
  m_is_server : bool;
  m_hdl : connection_hdl;
  m_socket_init_handler : socket_init_handler;
  m_tls_init_handler : tls_init_handler
}.

(** What a member function can read and write: the object and the
    reactor. *)
Record world := {
  this : type;
  io : io_service
}.

Definition M (A : Type) : Type := stateful world A.

Definition get_this : M type := fun w => Ok (this w, w).

Definition modify_this (f : type -> type) : M unit :=
  fun w => Ok (tt, {| this := f (this w); io := io w |}).

(** [*p] and [p->] *)
Definition deref {A} (p : option A) : M A :=
  fun w => match p with
           | Some a => Ok (a, w)
           | None => NullDeref
           end.

Definition emit (e : event) : M unit :=
  fun w => Ok (tt, {| this := this w;
                      io := {| ready := ready (io w);
                               trace := trace (io w) ++ [e] |} |}).

(** Completed operations are queued behind the handlers already ready. *)
Definition post (q : list (completion_handler * boost_error)) : M unit :=
  fun w => Ok (tt, {| this := this w;
                      io := {| ready := ready (io w) ++ q;
                               trace := trace (io w) |} |}).

Definition cout (line : string) : M unit := emit (ev_cout line).

(** Assignments to the data members. *)
Definition set_m_io_service (v : io_service_ptr) (c : type) : type :=
  {| m_io_service := v; m_context := m_context c; m_socket := m_socket c;
     m_timer := m_timer c; m_is_server := m_is_server c; m_hdl := m_hdl c;
     m_socket_init_handler := m_socket_init_handler c;
     m_tls_init_handler := m_tls_init_handler c |}.
Definition set_m_context (v : context_ptr) (c : type) : type :=
  {| m_io_service := m_io_service c; m_context := v; m_socket := m_socket c;
     m_timer := m_timer c; m_is_server := m_is_server c; m_hdl := m_hdl c;
     m_socket_init_handler := m_socket_init_handler c;
     m_tls_init_handler := m_tls_init_handler c |}.
Definition set_m_socket (v : socket_ptr) (c : type) : type :=
  {| m_io_service := m_io_service c; m_context := m_context c; m_socket := v;
     m_timer := m_timer c; m_is_server := m_is_server c; m_hdl := m_hdl c;
     m_socket_init_handler := m_socket_init_handler c;
     m_tls_init_handler := m_tls_init_handler c |}.
Definition set_m_timer (v : timer_ptr) (c : type) : type :=
  {| m_io_service := m_io_service c; m_context := m_context c;
     m_socket := m_socket c; m_timer := v; m_is_server := m_is_server c;
     m_hdl := m_hdl c;
     m_socket_init_handler := m_socket_init_handler c;
     m_tls_init_handler := m_tls_init_handler c |}.
Definition set_m_is_server (v : bool) (c : type) : type :=
  {| m_io_service := m_io_service c; m_context := m_context c;
     m_socket := m_socket c; m_timer := m_timer c; m_is_server := v;
     m_hdl := m_hdl c;
     m_socket_init_handler := m_socket_init_handler c;
     m_tls_init_handler := m_tls_init_handler c |}.
Definition set_m_hdl (v : connection_hdl) (c : type) : type :=
  {| m_io_service := m_io_service c; m_context := m_context c;
     m_socket := m_socket c; m_timer := m_timer c;
     m_is_server := m_is_server c; m_hdl := v;
     m_socket_init_handler := m_socket_init_handler c;
     m_tls_init_handler := m_tls_init_handler c |}.
Definition set_m_socket_init_handler (v : socket_init_handler) (c : type)
  : type :=
  {| m_io_service := m_io_service c; m_context := m_context c;
     m_socket := m_socket c; m_timer := m_timer c;
     m_is_server := m_is_server c; m_hdl := m_hdl c;
     m_socket_init_handler := v;
     m_tls_init_handler := m_tls_init_handler c |}.
Definition set_m_tls_init_handler (v : tls_init_handler) (c : type) : type :=
  {| m_io_service := m_io_service c; m_context := m_context c;
     m_socket := m_socket c; m_timer := m_timer c;
     m_is_server := m_is_server c; m_hdl := m_hdl c;
     m_socket_init_handler := m_socket_init_handler c;
     m_tls_init_handler := v |}.

(** [explicit connection()]: the shared pointers are null, the handlers
    and the handle empty; [m_io_service] and [m_is_server] are not
    initialised and hold whatever the arguments say. *)
Definition constructed (junk_service : io_service_ptr) (junk_role : bool)
  : type :=
  {| m_io_service := junk_service; m_context := None; m_socket := None;
     m_timer := None; m_is_server := junk_role; m_hdl := None;
     m_socket_init_handler := None; m_tls_init_handler := None |}.

Definition connection (junk_service : io_service_ptr) (junk_role : bool)
    (r : io_service) : world :=
  {| this := constructed junk_service junk_role;
     io := {| ready := ready r;
              trace := trace r ++
                [ev_cout "transport::asio::tls_socket::connection constructor"]
           |} |}.

Definition is_secure : M bool := ret true.

(** [return m_socket->lowest_layer();] *)
Definition get_raw_socket : M lowest_layer_type :=
  c <- get_this;
  s <- deref (m_socket c);
  ret (sk_lowest_layer s).

(** [return *m_socket;] *)
Definition get_socket : M socket_type :=
  c <- get_this;
  deref (m_socket c).

Definition set_socket_init_handler (h : socket_init_handler) : M unit :=
  modify_this (set_m_socket_init_handler h).

Definition set_tls_init_handler (h : tls_init_handler) : M unit :=
  modify_this (set_m_tls_init_handler h).

Definition init_asio (service : io_service_ptr) (is_server : bool)
  : M lib.error_code :=
  cout "transport::security::tls_socket::init_asio" ;;
  c <- get_this;
  match m_tls_init_handler c with
  | None =>
      cout "missing_tls_init_handler" ;;
      ret (make_error socket.error.missing_tls_init_handler)
  | Some tls_init =>
      emit (ev_tls_init (m_hdl c)) ;;
      modify_this (set_m_context (tls_init (m_hdl c))) ;;
      c <- get_this;
      match m_context c with
      | None => ret (make_error socket.error.invalid_tls_context)
      | Some ctx =>
          sv <- deref service;
          modify_this (set_m_socket (Some (asio.new_socket sv ctx))) ;;
          modify_this (set_m_timer (Some (asio.new_timer sv))) ;;
          modify_this (set_m_io_service service) ;;
          modify_this (set_m_is_server is_server) ;;
          ret lib.no_error
      end
  end.

Definition get_handshake_type : M handshake_type :=
  c <- get_this;
  if m_is_server c then ret server else ret client.

(** [m_timer->expires_from_now(boost::posix_time::milliseconds(5000))] *)
Definition timer_expires_from_now (ms : Z) : M unit :=
  c <- get_this;
  t <- deref (m_timer c);
  emit (ev_expires_from_now ms) ;;
  modify_this (set_m_timer (Some (fst (asio.expires_from_now ms t)))) ;;
  post (snd (asio.expires_from_now ms t)).

(** [m_timer->async_wait(h)] *)
Definition timer_async_wait (h : completion_handler) : M unit :=
  c <- get_this;
  t <- deref (m_timer c);
  emit (ev_async_wait h) ;;
  modify_this (set_m_timer (Some (asio.async_wait h t))).

(** [m_timer->cancel()] *)
Definition timer_cancel : M unit :=
  c <- get_this;
  t <- deref (m_timer c);
  emit ev_cancel ;;
  modify_this (set_m_timer (Some (fst (asio.cancel t)))) ;;
  post (snd (asio.cancel t)).

(** [m_socket->async_handshake(ty, h)] *)
Definition socket_async_handshake (ty : handshake_type)
    (h : completion_handler) : M unit :=
  c <- get_this;
  s <- deref (m_socket c);
  emit (ev_async_handshake ty h) ;;
  modify_this (set_m_socket (Some (asio.async_handshake ty h s))).

(** [callback(ec)] *)
Definition call (callback : init_handler) (ec : lib.error_code) : M unit :=
  emit (ev_callback callback ec).

Definition init (callback : init_handler) : M unit :=
  c <- get_this;
  match m_socket_init_handler c with
  | Some socket_init =>
      raw <- get_raw_socket;
      emit (ev_socket_init (m_hdl c) raw) ;;
      s <- deref (m_socket c);
      modify_this
        (set_m_socket
           (Some (asio.set_lowest_layer (socket_init (m_hdl c) raw) s)))
  | None => ret tt
  end ;;
  timer_expires_from_now 5000 ;;
  timer_async_wait (bind_handle_timeout callback) ;;
  ty <- get_handshake_type;
  socket_async_handshake ty (bind_handle_init callback).

Definition set_handle (hdl : connection_hdl) : M unit :=
  modify_this (set_m_hdl hdl).

Definition handle_timeout (callback : init_handler) (error : boost_error)
  : M unit :=
  if negb (error =? 0) then
    if error =? operation_aborted then
      ret tt
    else
      call callback (make_error socket.error.pass_through)
  else
    call callback (make_error socket.error.tls_handshake_timeout).

Definition handle_init (callback : init_handler) (error : boost_error)
  : M unit :=
  timer_cancel ;;
  if negb (error =? 0) then
    call callback (make_error socket.error.pass_through)
  else
    call callback lib.no_error.

(** [m_socket->shutdown(ec)] writes the result of the close into the local
    [ec]; [close_result] is the value the stream writes there. *)
Definition shutdown (close_result : boost_error) : M unit :=
  c <- get_this;
  s <- deref (m_socket c);
  emit ev_shutdown ;;
  let ec := close_result in
  ret tt.

End connection.

(** ** [class endpoint] *)

Module endpoint.

Record type := {
  m_socket_init_handler : socket_init_handler;
  m_tls_init_handler : tls_init_handler
}.

(** [socket_con_ptr]: a shared pointer to a connection, as the address of
    the connection object in the store. *)
Definition socket_con_ptr := option nat.

(** What a member function of the endpoint can read and write: the
    endpoint, the connection objects that exist, and the reactor. *)
Record world := {
  this : type;
  connections : gmap nat connection.type;
  io : io_service
}.

Definition M (A : Type) : Type := stateful world A.

Definition get_this : M type := fun w => Ok (this w, w).

Definition modify_this (f : type -> type) : M unit :=
  fun w => Ok (tt, {| this := f (this w); connections := connections w;
                      io := io w |}).

Definition cout (line : string) : M unit :=
  fun w => Ok (tt, {| this := this w; connections := connections w;
                      io := {| ready := ready (io w);
                               trace := trace (io w) ++ [ev_cout line] |} |}).

(** [scon->f(...)]: run a member function of the connection that [scon]
    points to, on that object, and store the object back.  A null or
    dangling [scon] is a null dereference. *)
Definition arrow {A} (scon : socket_con_ptr) (f : connection.M A) : M A :=
  fun w =>
    match scon with
    | None => NullDeref
    | Some p =>
        match connections w !! p with
        | None => NullDeref
        | Some c =>
            match f {| connection.this := c; connection.io := io w |} with
            | Ok (a, cw) =>
                Ok (a, {| this := this w;
                          connections :=
                            <[p := connection.this cw]> (connections w);
                          io := connection.io cw |})
            | NullDeref => NullDeref
            end
        end
    end.

(** [explicit endpoint()] *)
Definition endpoint (conns : gmap nat connection.type) (r : io_service)
  : world :=
  {| this := {| m_socket_init_handler := None; m_tls_init_handler := None |};
     connections := conns;
     io := {| ready := ready r;
              trace := trace r ++
                [ev_cout "transport::asio::tls_socket::endpoint constructor"]
           |} |}.

Definition is_secure : M bool := ret true.

Definition set_socket_init_handler (h : socket_init_handler) : M unit :=
  modify_this (fun e => {| m_socket_init_handler := h;
                           m_tls_init_handler := m_tls_init_handler e |}).

Definition set_tls_init_handler (h : tls_init_handler) : M unit :=
  modify_this (fun e => {| m_socket_init_handler := m_socket_init_handler e;
                           m_tls_init_handler := h |}).

Definition init (scon : socket_con_ptr) : M unit :=
  cout "transport::asio::tls_socket::init" ;;
  e <- get_this;
  arrow scon (connection.set_socket_init_handler (m_socket_init_handler e)) ;;
  e <- get_this;
  arrow scon (connection.set_tls_init_handler (m_tls_init_handler e)).

(** A call of one of the two public setters, and a sequence of such
    calls. *)
Inductive setter_call :=
| call_set_socket_init_handler (h : socket_init_handler)
| call_set_tls_init_handler (h : tls_init_handler).

Definition perform (c : setter_call) : M unit :=
  match c with
  | call_set_socket_init_handler h => set_socket_init_handler h
  | call_set_tls_init_handler h => set_tls_init_handler h
  end.

Fixpoint perform_all (cs : list setter_call) : M unit :=
  match cs with
  | [] => ret tt
  | c :: cs' => perform c ;; perform_all cs'
  end.

End endpoint.

(** ** The reactor at work *)

Module reactor.

(** What the io_service can do next for a connection: complete the
    outstanding waits of its timer with an error code ([0] when the
    deadline has elapsed), complete the oldest outstanding handshake of its
    stream with an error code ([0] when the handshake succeeded), or run
    the oldest ready handler.  A completion only queues the handler. *)
Inductive action :=
| wait_completes (ec : boost_error)
| handshake_resolves (ec : boost_error)
| run_one.

(** Calling a bound continuation with the error code for [_1]. *)
Definition invoke (h : completion_handler) (ec : boost_error)
  : connection.M unit :=
  match h with
  | bind_handle_timeout callback => connection.handle_timeout callback ec
  | bind_handle_init callback => connection.handle_init callback ec
  end.

Definition no_waits (t : deadline_timer) : deadline_timer :=
  {| tm_service := tm_service t; tm_expiry := tm_expiry t; tm_waits := [] |}.

Definition with_handshakes (l : list (handshake_type * completion_handler))
    (s : socket_type) : socket_type :=
  {| sk_service := sk_service s; sk_context := sk_context s;
     sk_lowest_layer := sk_lowest_layer s; sk_handshakes := l |}.

Definition step (a : action) : connection.M unit :=
  match a with
  | wait_completes ec =>
      c <- connection.get_this;
      match connection.m_timer c with
      | Some t =>
          connection.modify_this
            (connection.set_m_timer (Some (no_waits t))) ;;
          connection.post (asio.completed ec (tm_waits t))
      | None => ret tt
      end
  | handshake_resolves ec =>
      c <- connection.get_this;
      match connection.m_socket c with
      | Some s =>
          match sk_handshakes s with
          | (_, h) :: rest =>
              connection.modify_this
                (connection.set_m_socket (Some (with_handshakes rest s))) ;;
              connection.post [(h, ec)]
          | [] => ret tt
          end
      | None => ret tt
      end
  | run_one =>
      fun w =>
        match ready (connection.io w) with
        | (h, ec) :: rest =>
            invoke h ec
              {| connection.this := connection.this w;
                 connection.io := {| ready := rest;
                                     trace := trace (connection.io w) |} |}
        | [] => Ok (tt, w)
        end
  end.

Fixpoint run (sched : list action) : connection.M unit :=
  match sched with
  | [] => ret tt
  | a :: sched' => step a ;; run sched'
  end.

End reactor.

(** ** What a trace reports *)

(** The invocations of completion callbacks in a trace, in order. *)
Fixpoint callbacks (tr : list event) : list (init_handler * lib.error_code) :=
  match tr with
  | [] => []
  | ev_callback cb ec :: tr' => (cb, ec) :: callbacks tr'
  | _ :: tr' => callbacks tr'
  end.

(** The error codes a given callback was invoked with, in order. *)
Fixpoint reports (cb : init_handler) (tr : list event) : list lib.error_code :=
  match tr with
  | [] => []
  | ev_callback cb' ec :: tr' =>
      if Nat.eqb cb cb' then ec :: reports cb tr' else reports cb tr'
  | _ :: tr' => reports cb tr'
  end.

(** Whether some callback was told that the handshake timed out. *)
Definition timeout_reported (tr : list event) : Prop :=
  exists cb, In (cb, make_error socket.error.tls_handshake_timeout)
                (callbacks tr).

(** The events a world has gained over an earlier one report no timeout. *)
Definition quietly (w w' : connection.world) : Prop :=
  exists evs,
    trace (connection.io w') = trace (connection.io w) ++ evs
    /\ ~ timeout_reported evs.

(** No handler of the timer is queued with the code of an elapsed
    deadline. *)
Definition no_expiry_queued (w : connection.world) : Prop :=
  forall cb, ~ In (bind_handle_timeout cb, 0) (ready (connection.io w)).

(** Every handshake outstanding on the connection's stream will be answered
    by [handle_init]. *)
Definition handshakes_for_handle_init (w : connection.world) : Prop :=
  match connection.m_socket (connection.this w) with
  | Some s =>
      forall ty h, In (ty, h) (sk_handshakes s) ->
                   exists cb, h = bind_handle_init cb
  | None => True
  end.

(** No wait is outstanding on the connection's timer. *)
Definition timer_idle (w : connection.world) : Prop :=
  match connection.m_timer (connection.this w) with
  | Some t => tm_waits t = []
  | None => True
  end.

(** The deadline does not elapse during a schedule. *)
Definition deadline_free (sched : list reactor.action) : Prop :=
  ~ In (reactor.wait_completes 0) sched.

(** Connections on which [init_asio] has not succeeded: a connection as
    constructed, after any calls of [set_handle] and of the handler setters,
    and after calls of [init_asio] that returned an error. *)
Inductive unbound : connection.world -> Prop :=
| unbound_constructed junk_service junk_role r :
    unbound (connection.connection junk_service junk_role r)
| unbound_set_handle w hdl w' :
    unbound w ->
    connection.set_handle hdl w = Ok (tt, w') ->
    unbound w'
| unbound_set_socket_init_handler w h w' :
    unbound w ->
    connection.set_socket_init_handler h w = Ok (tt, w') ->
    unbound w'
| unbound_set_tls_init_handler w h w' :
    unbound w ->
    connection.set_tls_init_handler h w = Ok (tt, w') ->
    unbound w'
| unbound_init_asio_failed w service is_server e w' :
    unbound w ->
    connection.init_asio service is_server w = Ok (lib.socket_error e, w') ->
    unbound w'.


(** ** Sample connections *)

(** An application whose tls-init handler hands out context 7 and whose
    socket-init handler switches option 1 on. *)
Definition sample_tls_init : connection_hdl -> context_ptr :=
  fun _ => Some 7%nat.

Definition sample_socket_init
  : connection_hdl -> lowest_layer_type -> lowest_layer_type :=
  fun _ raw => (1%nat, 1) :: raw.

Definition idle_io : io_service := {| ready := []; trace := [] |}.

(** A connection with handle 3 and both handlers set, before [init_asio]. *)
Definition sample_configured : connection.world :=
  {| connection.this :=
       {| connection.m_io_service := None;
          connection.m_context := None;
          connection.m_socket := None;
          connection.m_timer := None;
          connection.m_is_server := false;
          connection.m_hdl := Some 3%nat;
          connection.m_socket_init_handler := Some sample_socket_init;
          connection.m_tls_init_handler := Some sample_tls_init |};
     connection.io := idle_io |}.

(** The same connection after [init_asio (Some 1) true], the console lines
    left out. *)
Definition sample_bound : connection.world :=
  {| connection.this :=
       {| connection.m_io_service := Some 1%nat;
          connection.m_context := Some 7%nat;
          connection.m_socket := Some (asio.new_socket 1%nat 7%nat);
          connection.m_timer := Some (asio.new_timer 1%nat);
          connection.m_is_server := true;
          connection.m_hdl := Some 3%nat;
          connection.m_socket_init_handler := Some sample_socket_init;
          connection.m_tls_init_handler := Some sample_tls_init |};
     connection.io := idle_io |}.

(** The world a computation leaves behind, when it returns. *)
Definition world_after {A} (m : connection.M A) (w : connection.world)
  : option connection.world :=
  match m w with
  | Ok (_, w') => Some w'
  | NullDeref => None
  end.

(** An endpoint with both handlers set, and one connection, at address 0,
    as constructed. *)
Definition sample_endpoint : endpoint.world :=
  {| endpoint.this :=
       {| endpoint.m_socket_init_handler := Some sample_socket_init;
          endpoint.m_tls_init_handler := Some sample_tls_init |};
     endpoint.connections := {[ 0%nat := connection.constructed None false ]};
     endpoint.io := idle_io |}.

(** The world a schedule leaves behind, or the world itself when a null
    pointer was dereferenced on the way. *)
Definition reactor_after (sched : list reactor.action) (w : connection.world)
  : connection.world :=
  match reactor.run sched w with
  | Ok (_, w') => w'
  | NullDeref => w
  end.

(** The sample connection once [init] has started an attempt for callback
    9; with the handshake then resolved successfully; with [handle_init]
    then run; and after the aborted wait was delivered and the deadline
    passed. *)
Definition sample_started : connection.world :=
  Eval vm_compute in
    match connection.init 9%nat sample_bound with
    | Ok (_, w') => w'
    | NullDeref => sample_bound
    end.

Definition sample_resolved : connection.world :=
  Eval vm_compute in
    reactor_after [reactor.handshake_resolves 0] sample_started.

Definition sample_established : connection.world :=
  Eval vm_compute in reactor_after [reactor.run_one] sample_resolved.

Definition sample_settled : connection.world :=
  Eval vm_compute in
    reactor_after [reactor.run_one; reactor.wait_completes 0; reactor.run_one]
      sample_established.

(** The sample attempt when instead the deadline elapses first and
    [handle_timeout] runs; and when the handshake then succeeds after all
    and [handle_init] runs. *)
Definition sample_timed_out : connection.world :=
  Eval vm_compute in
    reactor_after [reactor.wait_completes 0; reactor.run_one] sample_started.

Definition sample_resolved_late : connection.world :=
  Eval vm_compute in
    reactor_after [reactor.handshake_resolves 0; reactor.run_one]
      sample_timed_out.

(** ** What the reactor still owes a connection *)

(** The callback a continuation was bound with. *)
Definition bound_callback (h : completion_handler) : init_handler :=
  match h with
  | bind_handle_timeout callback => callback
  | bind_handle_init callback => callback
  end.

Definition is_handle_init (h : completion_handler) : bool :=
  match h with
  | bind_handle_init _ => true
  | bind_handle_timeout _ => false
  end.

(** The continuations of the waits outstanding on the connection's timer. *)
Definition timer_waits (w : connection.world) : list completion_handler :=
  match connection.m_timer (connection.this w) with
  | Some t => tm_waits t
  | None => []
  end.

(** The continuations of the handshakes outstanding on its stream. *)
Definition stream_handshakes (w : connection.world)
  : list completion_handler :=
  match connection.m_socket (connection.this w) with
  | Some s => map snd (sk_handshakes s)
  | None => []
  end.

(** Every continuation that has been handed to the reactor and has not run
    yet: outstanding on the timer, outstanding on the stream, or ready. *)
Definition outstanding_handlers (w : connection.world)
  : list completion_handler :=
  timer_waits w ++ stream_handshakes w ++ map fst (ready (connection.io w)).

(** How many of the ready handlers are [handle_init] continuations. *)
Fixpoint ready_handle_inits (q : list (completion_handler * boost_error))
  : nat :=
  match q with
  | [] => O
  | (h, _) :: q' =>
      if is_handle_init h then S (ready_handle_inits q')
      else ready_handle_inits q'
  end.

(** The timer's wait does not complete by itself during a schedule: the
    deadline does not elapse and the timer does not fail. *)
Definition wait_free (sched : list reactor.action) : Prop :=
  forall ec, ~ In (reactor.wait_completes ec) sched.

(** A connection as a successful [init_asio] leaves it on an idle reactor:
    it has a socket and a timer, with nothing outstanding and nothing
    ready. *)
Definition fresh (w : connection.world) : Prop :=
  exists s t,
    connection.m_socket (connection.this w) = Some s
    /\ connection.m_timer (connection.this w) = Some t
    /\ sk_handshakes s = []
    /\ tm_waits t = []
    /\ ready (connection.io w) = [].

(** What the callback is told about a handshake that resolved with
    [error]. *)
Definition handshake_report (error : boost_error) : lib.error_code :=
  if error =? 0 then lib.no_error
  else make_error socket.error.pass_through.

(** What the callback is told about a wait that completed, uncancelled,
    with [error]. *)
Definition wait_report (error : boost_error) : lib.error_code :=
  if error =? 0 then make_error socket.error.tls_handshake_timeout
  else make_error socket.error.pass_through.

(** An endpoint on which no handler was set, and one connection, at address
    0, that has handlers of its own. *)
Definition sample_endpoint_unset : endpoint.world :=
  {| endpoint.this :=
       {| endpoint.m_socket_init_handler := None;
          endpoint.m_tls_init_handler := None |};
     endpoint.connections := {[ 0%nat := connection.this sample_configured ]};
     endpoint.io := idle_io |}.

(** The state of an attempt whose timer has not completed by itself, seen
    from the trace [base] the attempt started with: the events since then,
    the handshakes outstanding and the [handle_init] continuations ready
    add up to exactly one result, for [callback]; the timer waits for
    [handle_timeout] only, and any [handle_timeout] continuation that is
    ready carries [operation_aborted]. *)
Definition one_result_due (callback : init_handler) (base : list event)
    (w : connection.world) : Prop :=
  exists evs,
    trace (connection.io w) = base ++ evs
    /\ (forall cb ec, In (bind_handle_timeout cb, ec) (ready (connection.io w))
                      -> ec = operation_aborted)
    /\ (forall h, In h (timer_waits w) -> is_handle_init h = false)
    /\ (forall h, In h (stream_handshakes w) -> h = bind_handle_init callback)
    /\ (forall cb ec, In (bind_handle_init cb, ec) (ready (connection.io w))
                      -> cb = callback)
    /\ (length (callbacks evs) + length (stream_handshakes w)
        + ready_handle_inits (ready (connection.io w)) = 1)%nat
    /\ (forall cb ec, In (cb, ec) (callbacks evs) ->
          cb = callback
          /\ (ec = lib.no_error
              \/ ec = make_error socket.error.pass_through)).

(** The sample attempt when the handshake succeeds in time but the deadline
    elapses before [handle_init] has run; with [handle_init] then run; and
    with [handle_timeout] run after it. *)
Definition sample_resolved_expired : connection.world :=
  Eval vm_compute in
    reactor_after [reactor.handshake_resolves 0; reactor.wait_completes 0]
      sample_started.

Definition sample_established_late : connection.world :=
  Eval vm_compute in reactor_after [reactor.run_one] sample_resolved_expired.

Definition sample_timed_out_late : connection.world :=
  Eval vm_compute in reactor_after [reactor.run_one] sample_established_late.

(** * Properties *)

Local Ltac open_world w :=
  let c := fresh "c" in
  let r := fresh "r" in
  destruct w as [c r]; destruct c; destruct r; simpl in *.

(** Running member functions on a world that is spelled out. *)
Local Ltac run_cpp :=
  repeat progress
    (cbv beta iota delta
       [bind ret connection.get_this connection.modify_this connection.post
        connection.deref connection.emit connection.call connection.cout
        connection.handle_timeout connection.handle_init
        connection.timer_cancel reactor.invoke reactor.step reactor.run];
     simpl).

(** ** [init_asio] *)

(** C2: when no tls-init handler is set, [init_asio] returns
    [missing_tls_init_handler]; the connection object is left as it was (so
    its socket, timer, io_service and role are unchanged: nothing was
    allocated), nothing is queued on the reactor, and only the two console
    lines were written. *)
Theorem init_asio_missing_tls_init_handler
    (w : connection.world) (service : io_service_ptr) (is_server : bool) :
  connection.m_tls_init_handler (connection.this w) = None ->
  exists w',
    connection.init_asio service is_server w
      = Ok (make_error socket.error.missing_tls_init_handler, w')
    /\ connection.this w' = connection.this w
    /\ connection.m_socket (connection.this w')
         = connection.m_socket (connection.this w)
    /\ connection.m_timer (connection.this w')
         = connection.m_timer (connection.this w)
    /\ connection.m_io_service (connection.this w')
         = connection.m_io_service (connection.this w)
    /\ connection.m_is_server (connection.this w')
         = connection.m_is_server (connection.this w)
    /\ ready (connection.io w') = ready (connection.io w)
    /\ trace (connection.io w')
         = trace (connection.io w)
             ++ [ev_cout "transport::security::tls_socket::init_asio";
                 ev_cout "missing_tls_init_handler"].
Proof.
  intros Hnone. open_world w. subst.
  eexists. split; [reflexivity|]. simpl.
  rewrite <- app_assoc. simpl. repeat split; reflexivity.
Qed.

Lemma init_asio_missing_tls_init_handler_witness :
  exists w',
    connection.init_asio (Some 1%nat) true
      (connection.connection None false {| ready := []; trace := [] |})
      = Ok (make_error socket.error.missing_tls_init_handler, w')
    /\ connection.m_socket (connection.this w') = None
    /\ connection.m_timer (connection.this w') = None.
Proof.
  destruct (init_asio_missing_tls_init_handler
              (connection.connection None false {| ready := []; trace := [] |})
              (Some 1%nat) true eq_refl)
    as (w' & Hrun & _ & Hs & Ht & _).
  exists w'. repeat split; assumption.
Defined.

(** C3: when the tls-init handler is set and returns a null context,
    [init_asio] returns [invalid_tls_context]; the handler was called once
    with the connection's handle, [m_context] is null, and the socket, the
    timer, the io_service pointer and the role are as they were, with nothing
    queued on the reactor: the error is reported before any socket or timer
    is allocated.  This holds for any [service], null or not. *)
Theorem init_asio_invalid_tls_context
    (w : connection.world) (service : io_service_ptr) (is_server : bool)
    (tls_init : connection_hdl -> context_ptr) :
  connection.m_tls_init_handler (connection.this w) = Some tls_init ->
  tls_init (connection.m_hdl (connection.this w)) = None ->
  exists w',
    connection.init_asio service is_server w
      = Ok (make_error socket.error.invalid_tls_context, w')
    /\ connection.m_context (connection.this w') = None
    /\ connection.m_socket (connection.this w')
         = connection.m_socket (connection.this w)
    /\ connection.m_timer (connection.this w')
         = connection.m_timer (connection.this w)
    /\ connection.m_io_service (connection.this w')
         = connection.m_io_service (connection.this w)
    /\ connection.m_is_server (connection.this w')
         = connection.m_is_server (connection.this w)
    /\ ready (connection.io w') = ready (connection.io w)
    /\ trace (connection.io w')
         = trace (connection.io w)
             ++ [ev_cout "transport::security::tls_socket::init_asio";
                 ev_tls_init (connection.m_hdl (connection.this w))].
Proof.
  intros Hh Hnull. open_world w. subst.
  unfold connection.init_asio, bind, connection.cout, connection.emit,
    connection.get_this, connection.modify_this. simpl.
  rewrite Hnull. simpl.
  eexists. split; [reflexivity|]. simpl.
  rewrite <- app_assoc. simpl. repeat split; reflexivity.
Qed.

Lemma init_asio_invalid_tls_context_witness :
  exists w',
    connection.init_asio (Some 1%nat) true
      {| connection.this :=
           connection.set_m_tls_init_handler (Some (fun _ => None))
             (connection.constructed None false);
         connection.io := {| ready := []; trace := [] |} |}
      = Ok (make_error socket.error.invalid_tls_context, w')
    /\ connection.m_socket (connection.this w') = None
    /\ connection.m_timer (connection.this w') = None.
Proof.
  destruct (init_asio_invalid_tls_context
              {| connection.this :=
                   connection.set_m_tls_init_handler (Some (fun _ => None))
                     (connection.constructed None false);
                 connection.io := {| ready := []; trace := [] |} |}
              (Some 1%nat) true (fun _ => None) eq_refl eq_refl)
    as (w' & Hrun & _ & Hs & Ht & _).
  exists w'. repeat split; assumption.
Defined.

(** What a successful [init_asio] leaves behind: a fresh socket on the
    service and the context the handler returned, a fresh timer, and the
    role. *)
Lemma init_asio_success
    (w w1 : connection.world) (service : io_service_ptr) (is_server : bool) :
  connection.init_asio service is_server w = Ok (lib.no_error, w1) ->
  exists tls_init ctx sv,
    connection.m_tls_init_handler (connection.this w) = Some tls_init
    /\ tls_init (connection.m_hdl (connection.this w)) = Some ctx
    /\ service = Some sv
    /\ connection.this w1 =
         connection.set_m_is_server is_server
           (connection.set_m_io_service service
              (connection.set_m_timer (Some (asio.new_timer sv))
                 (connection.set_m_socket (Some (asio.new_socket sv ctx))
                    (connection.set_m_context (Some ctx)
                       (connection.this w)))))
    /\ ready (connection.io w1) = ready (connection.io w).
Proof.
  intros Hrun. open_world w.
  unfold connection.init_asio, bind, connection.cout, connection.emit,
    connection.get_this, connection.modify_this in Hrun. simpl in Hrun.
  destruct m_tls_init_handler as [tls_init|]; simpl in Hrun;
    [|discriminate].
  destruct (tls_init m_hdl) as [ctx|] eqn:Hctx; simpl in Hrun;
    [|discriminate].
  destruct service as [sv|]; simpl in Hrun; [|discriminate].
  inversion Hrun; subst; clear Hrun.
  exists tls_init, ctx, sv. simpl. rewrite Hctx. repeat split; reflexivity.
Qed.

(** ** [init] *)

(** [init] on a connection whose socket and timer exist: everything it
    does, spelled out. *)
Lemma init_bound
    (w : connection.world) (s : socket_type) (t : deadline_timer)
    (callback : init_handler) :
  connection.m_socket (connection.this w) = Some s ->
  connection.m_timer (connection.this w) = Some t ->
  let c := connection.this w in
  let role := if connection.m_is_server c then server else client in
  let s1 := match connection.m_socket_init_handler c with
            | Some socket_init =>
                asio.set_lowest_layer
                  (socket_init (connection.m_hdl c) (sk_lowest_layer s)) s
            | None => s
            end in
  let called := match connection.m_socket_init_handler c with
                | Some _ =>
                    [ev_socket_init (connection.m_hdl c) (sk_lowest_layer s)]
                | None => []
                end in
  connection.init callback w =
    Ok (tt,
        {| connection.this :=
             connection.set_m_socket
               (Some (asio.async_handshake role (bind_handle_init callback) s1))
               (connection.set_m_timer
                  (Some (asio.async_wait (bind_handle_timeout callback)
                           (fst (asio.expires_from_now 5000 t))))
                  c);
           connection.io :=
             {| ready := ready (connection.io w) ++ asio.aborted (tm_waits t);
                trace := trace (connection.io w) ++ called ++
                           [ev_expires_from_now 5000;
                            ev_async_wait (bind_handle_timeout callback);
                            ev_async_handshake role
                              (bind_handle_init callback)] |} |}).
Proof.
  intros Hs Ht. open_world w. subst.
  destruct m_socket_init_handler as [socket_init|], m_is_server;
    cbv [connection.init bind connection.get_this connection.get_raw_socket
         connection.deref connection.emit connection.modify_this ret
         connection.timer_expires_from_now connection.timer_async_wait
         connection.get_handshake_type connection.socket_async_handshake
         connection.post connection.this connection.io
         connection.m_socket connection.m_timer connection.m_is_server
         connection.m_hdl connection.m_socket_init_handler
         connection.set_m_socket connection.set_m_timer
         connection.m_io_service connection.m_context
         connection.m_tls_init_handler ready trace fst snd
         asio.expires_from_now];
    simpl; rewrite <- ?app_assoc; reflexivity.
Qed.

(** C6: on a connection whose socket and timer exist, [init] with a
    socket-init handler set calls that handler exactly once, with the
    connection's handle and the raw socket, and only then arms the timer for
    5000 ms, waits on it and starts the handshake; the raw socket ends up as
    the handler left it.  With no socket-init handler set, [init] does the
    same three steps and nothing before them, and leaves the raw socket
    alone; timer, pending handshake and reactor queue are the same in both
    cases. *)
Theorem init_calls_socket_init_handler_first
    (w : connection.world) (s : socket_type) (t : deadline_timer)
    (callback : init_handler) :
  connection.m_socket (connection.this w) = Some s ->
  connection.m_timer (connection.this w) = Some t ->
  let c := connection.this w in
  let role := if connection.m_is_server c then server else client in
  let rest := [ev_expires_from_now 5000;
               ev_async_wait (bind_handle_timeout callback);
               ev_async_handshake role (bind_handle_init callback)] in
  let armed := asio.async_wait (bind_handle_timeout callback)
                 (fst (asio.expires_from_now 5000 t)) in
  exists w',
    connection.init callback w = Ok (tt, w')
    /\ connection.m_timer (connection.this w') = Some armed
    /\ ready (connection.io w')
         = ready (connection.io w) ++ asio.aborted (tm_waits t)
    /\ match connection.m_socket_init_handler c with
       | Some socket_init =>
           trace (connection.io w')
             = trace (connection.io w)
                 ++ ev_socket_init (connection.m_hdl c) (sk_lowest_layer s)
                 :: rest
           /\ connection.m_socket (connection.this w')
                = Some (asio.async_handshake role (bind_handle_init callback)
                          (asio.set_lowest_layer
                             (socket_init (connection.m_hdl c)
                                (sk_lowest_layer s)) s))
       | None =>
           trace (connection.io w') = trace (connection.io w) ++ rest
           /\ connection.m_socket (connection.this w')
                = Some (asio.async_handshake role (bind_handle_init callback)
                          s)
       end.
Proof.
  intros Hs Ht c role rest armed.
  eexists. split; [apply (init_bound w s t callback Hs Ht)|].
  subst c role rest armed. simpl.
  destruct (connection.m_socket_init_handler (connection.this w));
    repeat split; reflexivity.
Qed.

Lemma init_calls_socket_init_handler_first_witness :
  exists w',
    connection.init 9%nat sample_bound = Ok (tt, w')
    /\ trace (connection.io w')
         = [ev_socket_init (Some 3%nat) [];
            ev_expires_from_now 5000;
            ev_async_wait (bind_handle_timeout 9%nat);
            ev_async_handshake server (bind_handle_init 9%nat)]
    /\ (exists s, connection.m_socket (connection.this w') = Some s
                  /\ sk_lowest_layer s = [(1%nat, 1)]).
Proof.
  destruct (init_calls_socket_init_handler_first sample_bound
              (asio.new_socket 1%nat 7%nat) (asio.new_timer 1%nat) 9%nat
              eq_refl eq_refl)
    as (w' & Hrun & _ & _ & Htrace & Hsock).
  exists w'. split; [exact Hrun|]. split; [exact Htrace|].
  eexists. split; [exact Hsock|reflexivity].
Defined.

(** C7: after [init_asio service is_server] has succeeded, the recorded role
    is [is_server], [get_handshake_type] answers [server] when it is true
    and [client] otherwise, and [init] starts exactly one handshake, of that
    type, as its last step. *)
Theorem handshake_type_is_role_of_init_asio
    (w w1 : connection.world) (service : io_service_ptr) (is_server : bool) :
  connection.init_asio service is_server w = Ok (lib.no_error, w1) ->
  let role := if is_server then server else client in
  connection.m_is_server (connection.this w1) = is_server
  /\ connection.get_handshake_type w1 = Ok (role, w1)
  /\ forall callback,
       exists w2 before s,
         connection.init callback w1 = Ok (tt, w2)
         /\ trace (connection.io w2)
              = trace (connection.io w1) ++ before
                  ++ [ev_async_handshake role (bind_handle_init callback)]
         /\ (forall ty h, ~ In (ev_async_handshake ty h) before)
         /\ connection.m_socket (connection.this w2) = Some s
         /\ sk_handshakes s = [(role, bind_handle_init callback)].
Proof.
  intros Hrun role.
  destruct (init_asio_success _ _ _ _ Hrun)
    as (tls_init & ctx & sv & _ & _ & -> & Hthis & _).
  assert (Hrole : connection.m_is_server (connection.this w1) = is_server)
    by (rewrite Hthis; reflexivity).
  split; [exact Hrole|]. split.
  - unfold connection.get_handshake_type, bind, connection.get_this.
    rewrite Hrole. subst role. destruct is_server; reflexivity.
  - intros callback.
    assert (Hs : connection.m_socket (connection.this w1)
                 = Some (asio.new_socket sv ctx))
      by (rewrite Hthis; reflexivity).
    assert (Ht : connection.m_timer (connection.this w1)
                 = Some (asio.new_timer sv))
      by (rewrite Hthis; reflexivity).
    pose proof (init_bound w1 _ _ callback Hs Ht) as Hinit.
    simpl in Hinit. rewrite Hrole in Hinit. fold role in Hinit.
    eexists.
    exists (match connection.m_socket_init_handler (connection.this w1) with
            | Some _ =>
                [ev_socket_init (connection.m_hdl (connection.this w1))
                   (sk_lowest_layer (asio.new_socket sv ctx))]
            | None => []
            end ++ [ev_expires_from_now 5000;
                    ev_async_wait (bind_handle_timeout callback)]).
    eexists. split; [exact Hinit|].
    simpl. split; [rewrite <- !app_assoc; reflexivity|].
    split.
    + intros ty h Hin. apply in_app_or in Hin. destruct Hin as [Hin|Hin].
      * destruct (connection.m_socket_init_handler (connection.this w1));
          simpl in Hin; [destruct Hin as [Hin|Hin]; [discriminate|easy]|easy].
      * simpl in Hin. destruct Hin as [Hin|[Hin|Hin]];
          [discriminate|discriminate|easy].
    + split; [reflexivity|].
      destruct (connection.m_socket_init_handler (connection.this w1));
        reflexivity.
Qed.

Lemma handshake_type_is_role_of_init_asio_witness :
  exists w1,
    connection.init_asio (Some 1%nat) true sample_configured
      = Ok (lib.no_error, w1)
    /\ connection.get_handshake_type w1 = Ok (server, w1).
Proof.
  eexists. split; [reflexivity|].
  exact (proj1 (proj2 (handshake_type_is_role_of_init_asio
                         sample_configured _ (Some 1%nat) true eq_refl))).
Defined.

(** ** [handle_timeout] *)

(** [handle_timeout] never touches the connection or the reactor's queue. *)
Lemma handle_timeout_aborted (w : connection.world) (callback : init_handler) :
  connection.handle_timeout callback operation_aborted w = Ok (tt, w).
Proof. reflexivity. Qed.

(** C10: when the wait completes with an error code that is neither success
    nor [operation_aborted], [handle_timeout] invokes the callback, once,
    with [pass_through], and does nothing else. *)
Theorem handle_timeout_passes_timer_failure_through
    (w : connection.world) (callback : init_handler) (error : boost_error) :
  error <> 0 ->
  error <> operation_aborted ->
  connection.handle_timeout callback error w
    = Ok (tt,
          {| connection.this := connection.this w;
             connection.io :=
               {| ready := ready (connection.io w);
                  trace := trace (connection.io w)
                             ++ [ev_callback callback
                                   (make_error socket.error.pass_through)]
               |} |}).
Proof.
  intros Herr Hab. unfold connection.handle_timeout.
  destruct (Z.eqb_spec error 0) as [|_]; [contradiction|].
  destruct (Z.eqb_spec error operation_aborted) as [|_]; [contradiction|].
  reflexivity.
Qed.

Lemma handle_timeout_passes_timer_failure_through_witness :
  callbacks
    (match world_after (connection.handle_timeout 9%nat 5) sample_bound with
     | Some w' => trace (connection.io w')
     | None => []
     end)
  = [(9%nat, make_error socket.error.pass_through)].
Proof.
  unfold world_after.
  rewrite (handle_timeout_passes_timer_failure_through sample_bound 9%nat 5);
    [reflexivity | discriminate | discriminate].
Defined.

(** ** [shutdown] *)

(** C8: [shutdown] does not read the error code the close wrote: whatever
    that code is, the outcome is the same.  On a connection with a socket it
    returns (nothing, its type is [unit]), having closed the stream, with
    the object and the reactor's queue as they were and no callback
    invoked. *)
Theorem shutdown_discards_error (w : connection.world) :
  (forall close_result close_result',
     connection.shutdown close_result w = connection.shutdown close_result' w)
  /\ forall close_result s,
       connection.m_socket (connection.this w) = Some s ->
       connection.shutdown close_result w
         = Ok (tt,
               {| connection.this := connection.this w;
                  connection.io :=
                    {| ready := ready (connection.io w);
                       trace := trace (connection.io w) ++ [ev_shutdown] |}
               |})
         /\ callbacks (trace (connection.io w) ++ [ev_shutdown])
            = callbacks (trace (connection.io w)).
Proof.
  split; [reflexivity|].
  intros close_result s Hs. split.
  - unfold connection.shutdown, bind, connection.get_this. rewrite Hs.
    reflexivity.
  - induction (trace (connection.io w)) as [|e tr IH]; [reflexivity|].
    destruct e; simpl; rewrite ?IH; reflexivity.
Qed.

Lemma shutdown_discards_error_witness :
  connection.shutdown 0 sample_bound = connection.shutdown 1 sample_bound
  /\ connection.shutdown 1 sample_bound
     = Ok (tt,
           {| connection.this := connection.this sample_bound;
              connection.io := {| ready := []; trace := [ev_shutdown] |} |}).
Proof.
  split.
  - exact (proj1 (shutdown_discards_error sample_bound) 0 1).
  - exact (proj1 (proj2 (shutdown_discards_error sample_bound) 1
                    (asio.new_socket 1%nat 7%nat) eq_refl)).
Defined.

(** ** The accessors *)

Lemma unbound_no_socket (w : connection.world) :
  unbound w -> connection.m_socket (connection.this w) = None.
Proof.
  induction 1 as [ | w hdl w' _ IH Hrun | w h w' _ IH Hrun
                 | w h w' _ IH Hrun | w sv srv e w' _ IH Hrun ].
  - reflexivity.
  - inversion Hrun; subst; exact IH.
  - inversion Hrun; subst; exact IH.
  - inversion Hrun; subst; exact IH.
  - open_world w. subst.
    unfold connection.init_asio, bind, connection.cout, connection.emit,
      connection.get_this, connection.modify_this in Hrun. simpl in Hrun.
    destruct m_tls_init_handler as [tls_init|]; simpl in Hrun.
    + destruct (tls_init m_hdl) as [ctx|]; simpl in Hrun.
      * destruct sv; simpl in Hrun; discriminate.
      * inversion Hrun; subst; reflexivity.
    + inversion Hrun; subst; reflexivity.
Qed.

(** C9: on a connection on which [init_asio] has not succeeded, [m_socket]
    is null, and both accessors dereference it: [get_raw_socket] and
    [get_socket] end in a null dereference instead of returning, and so
    return no error value of any kind. *)
Theorem accessors_unchecked_before_init_asio (w : connection.world) :
  unbound w ->
  connection.m_socket (connection.this w) = None
  /\ connection.get_raw_socket w = NullDeref
  /\ connection.get_socket w = NullDeref.
Proof.
  intros Hu. pose proof (unbound_no_socket w Hu) as Hs.
  split; [exact Hs|].
  unfold connection.get_raw_socket, connection.get_socket, bind,
    connection.get_this.
  rewrite Hs. split; reflexivity.
Qed.

Lemma accessors_unchecked_before_init_asio_witness :
  exists w',
    connection.init_asio (Some 1%nat) true
      (connection.connection None false idle_io)
      = Ok (make_error socket.error.missing_tls_init_handler, w')
    /\ connection.get_raw_socket w' = NullDeref
    /\ connection.get_socket w' = NullDeref.
Proof.
  eexists. split; [reflexivity|].
  exact (proj2 (accessors_unchecked_before_init_asio _
                  (unbound_init_asio_failed
                     (connection.connection None false idle_io)
                     (Some 1%nat) true
                     socket.error.missing_tls_init_handler _
                     (unbound_constructed None false idle_io) eq_refl))).
Defined.

(** ** [endpoint::init] *)

Lemma perform_all_keeps_connections
    (calls : list endpoint.setter_call) (w : endpoint.world) :
  exists w',
    endpoint.perform_all calls w = Ok (tt, w')
    /\ endpoint.connections w' = endpoint.connections w
    /\ endpoint.io w' = endpoint.io w.
Proof.
  revert w. induction calls as [|call calls IH]; intros w.
  - exists w. repeat split; reflexivity.
  - simpl. unfold bind.
    destruct call as [h|h]; simpl;
      match goal with
      | |- context [endpoint.perform_all calls ?w1] =>
          destruct (IH w1) as (w' & Hrun & Hc & Hio)
      end;
      exists w'; rewrite Hrun, Hc, Hio; repeat split; reflexivity.
Qed.

(** C5: [endpoint::init] on a pointer to a live connection returns, having
    assigned the endpoint's two handlers, as they are at that moment, to the
    connection's handler members; nothing else of the connection, no other
    connection and nothing of the endpoint changes.  Whatever calls of
    [set_socket_init_handler] and [set_tls_init_handler] are made on the
    endpoint afterwards, they return and leave every connection object as it
    was, so the connection keeps the handlers it was given. *)
Theorem endpoint_init_copies_handlers
    (w : endpoint.world) (p : nat) (c : connection.type) :
  endpoint.connections w !! p = Some c ->
  let c' := connection.set_m_tls_init_handler
              (endpoint.m_tls_init_handler (endpoint.this w))
              (connection.set_m_socket_init_handler
                 (endpoint.m_socket_init_handler (endpoint.this w)) c) in
  exists w1,
    endpoint.init (Some p) w = Ok (tt, w1)
    /\ endpoint.this w1 = endpoint.this w
    /\ endpoint.connections w1 = <[p := c']> (endpoint.connections w)
    /\ connection.m_socket_init_handler c'
         = endpoint.m_socket_init_handler (endpoint.this w)
    /\ connection.m_tls_init_handler c'
         = endpoint.m_tls_init_handler (endpoint.this w)
    /\ forall calls,
         exists w2,
           endpoint.perform_all calls w1 = Ok (tt, w2)
           /\ endpoint.connections w2 = endpoint.connections w1
           /\ endpoint.connections w2 !! p = Some c'.
Proof.
  intros Hp c'.
  destruct w as [e conns r]. simpl in *.
  eexists. split.
  - unfold endpoint.init, bind, endpoint.cout, endpoint.get_this,
      endpoint.arrow. simpl. rewrite Hp. simpl.
    rewrite lookup_insert_eq. simpl. rewrite insert_insert_eq. reflexivity.
  - simpl. repeat split.
    intros calls.
    match goal with
    | |- context [endpoint.perform_all calls ?w1] =>
        destruct (perform_all_keeps_connections calls w1)
          as (w2 & Hrun & Hc & _)
    end.
    exists w2. rewrite Hrun, Hc. simpl.
    repeat split. apply lookup_insert_eq.
Qed.

Lemma endpoint_init_copies_handlers_witness :
  exists w1 w2,
    endpoint.init (Some 0%nat)
      sample_endpoint
      = Ok (tt, w1)
    /\ endpoint.perform_all
         [endpoint.call_set_tls_init_handler None;
          endpoint.call_set_socket_init_handler None] w1
       = Ok (tt, w2)
    /\ endpoint.m_tls_init_handler (endpoint.this w2) = None
    /\ endpoint.connections w2 !! 0%nat
       = Some (connection.set_m_tls_init_handler (Some sample_tls_init)
                 (connection.set_m_socket_init_handler
                    (Some sample_socket_init)
                    (connection.constructed None false))).
Proof.
  destruct (endpoint_init_copies_handlers
              sample_endpoint 0%nat (connection.constructed None false)
              ltac:(vm_compute; reflexivity))
    as (w1 & Hrun & He & _ & _ & _ & Hlater).
  destruct (Hlater [endpoint.call_set_tls_init_handler None;
                    endpoint.call_set_socket_init_handler None])
    as (w2 & Hrun2 & _ & Hp).
  exists w1, w2. split; [exact Hrun|]. split; [exact Hrun2|].
  split; [|exact Hp].
  destruct w1 as [e1 c1 r1]. simpl in *. inversion Hrun2. reflexivity.
Defined.

(** ** The race between the handshake and the timer *)

Lemma callbacks_app (tr1 tr2 : list event) :
  callbacks (tr1 ++ tr2) = callbacks tr1 ++ callbacks tr2.
Proof.
  induction tr1 as [|e tr1 IH]; [reflexivity|].
  destruct e; simpl; rewrite ?IH; reflexivity.
Qed.

Lemma timeout_reported_app (tr1 tr2 : list event) :
  timeout_reported (tr1 ++ tr2) ->
  timeout_reported tr1 \/ timeout_reported tr2.
Proof.
  intros [cb Hin]. rewrite callbacks_app in Hin.
  apply in_app_or in Hin. destruct Hin; [left|right]; exists cb; assumption.
Qed.

Lemma quietly_refl (w : connection.world) : quietly w w.
Proof.
  exists []. split; [symmetry; apply app_nil_r|].
  intros [cb Hin]. exact Hin.
Qed.

Lemma quietly_trans (w1 w2 w3 : connection.world) :
  quietly w1 w2 -> quietly w2 w3 -> quietly w1 w3.
Proof.
  intros (evs1 & H1 & Hq1) (evs2 & H2 & Hq2).
  exists (evs1 ++ evs2). split.
  - rewrite H2, H1. symmetry. apply app_assoc.
  - intros Hr. apply timeout_reported_app in Hr. tauto.
Qed.

Lemma not_timeout_reported_one
    (callback : init_handler) (ec : lib.error_code) (before : list event) :
  callbacks before = [] ->
  ec <> make_error socket.error.tls_handshake_timeout ->
  ~ timeout_reported (before ++ [ev_callback callback ec]).
Proof.
  intros Hb Hne [cb Hin]. rewrite callbacks_app, Hb in Hin. simpl in Hin.
  destruct Hin as [Heq|[]]. inversion Heq. congruence.
Qed.

(** What [handle_init] does, when it returns: it cancels the timer, whose
    outstanding waits are queued with [operation_aborted], and invokes the
    callback once, with success or with [pass_through]. *)
Lemma handle_init_returns
    (w w' : connection.world) (callback : init_handler) (error : boost_error) :
  connection.handle_init callback error w = Ok (tt, w') ->
  exists t,
    connection.m_timer (connection.this w) = Some t
    /\ connection.this w'
         = connection.set_m_timer (Some (reactor.no_waits t))
             (connection.this w)
    /\ ready (connection.io w')
         = ready (connection.io w) ++ asio.aborted (tm_waits t)
    /\ trace (connection.io w')
         = trace (connection.io w)
             ++ [ev_cancel;
                 ev_callback callback
                   (if error =? 0 then lib.no_error
                    else make_error socket.error.pass_through)].
Proof.
  intros Hrun. open_world w.
  unfold connection.handle_init, connection.timer_cancel, bind,
    connection.get_this in Hrun. simpl in Hrun.
  destruct m_timer as [t|]; simpl in Hrun; [|discriminate].
  exists t. split; [reflexivity|].
  destruct (error =? 0); simpl in Hrun; inversion Hrun; subst; simpl;
    rewrite <- app_assoc; repeat split; reflexivity.
Qed.

Lemma in_aborted (h : completion_handler) (ec : boost_error)
    (hs : list completion_handler) :
  In (h, ec) (asio.aborted hs) -> ec = operation_aborted.
Proof.
  unfold asio.aborted. intros Hin. apply in_map_iff in Hin.
  destruct Hin as (h' & Heq & _). inversion Heq. reflexivity.
Qed.

Lemma in_completed (h : completion_handler) (ec ec' : boost_error)
    (hs : list completion_handler) :
  In (h, ec') (asio.completed ec hs) -> ec' = ec.
Proof.
  unfold asio.completed. intros Hin. apply in_map_iff in Hin.
  destruct Hin as (h' & Heq & _). inversion Heq. reflexivity.
Qed.

Lemma quietly_same_trace (w w' : connection.world) :
  trace (connection.io w') = trace (connection.io w) -> quietly w w'.
Proof.
  intros Heq. exists []. split; [rewrite Heq; symmetry; apply app_nil_r|].
  intros [cb Hin]. exact Hin.
Qed.

(** What [handle_timeout] does: it leaves the connection and the queue
    alone, and unless it was passed the code of an elapsed deadline, it
    reports no timeout. *)
Lemma handle_timeout_returns
    (w : connection.world) (callback : init_handler) (error : boost_error) :
  exists w',
    connection.handle_timeout callback error w = Ok (tt, w')
    /\ connection.this w' = connection.this w
    /\ ready (connection.io w') = ready (connection.io w)
    /\ (error <> 0 -> quietly w w').
Proof.
  unfold connection.handle_timeout.
  destruct (Z.eqb_spec error 0) as [->|Hne]; simpl.
  - eexists. split; [reflexivity|]. repeat split. congruence.
  - destruct (error =? operation_aborted).
    + exists w. repeat split. intros _. apply quietly_refl.
    + eexists. split; [reflexivity|]. repeat split. intros _.
      exists [ev_callback callback (make_error socket.error.pass_through)].
      split; [reflexivity|].
      apply (not_timeout_reported_one _ _ []); [reflexivity|discriminate].
Qed.

(** One action of the reactor keeps the queue free of elapsed deadlines and
    the outstanding handshakes bound to [handle_init], keeps an idle timer
    idle and reports no timeout, provided the action is not the deadline
    elapsing on a timer with outstanding waits. *)
Lemma step_quiet (a : reactor.action) (w w' : connection.world) :
  reactor.step a w = Ok (tt, w') ->
  no_expiry_queued w ->
  handshakes_for_handle_init w ->
  a <> reactor.wait_completes 0 \/ timer_idle w ->
  no_expiry_queued w'
  /\ handshakes_for_handle_init w'
  /\ (timer_idle w -> timer_idle w')
  /\ quietly w w'.
Proof.
  intros Hrun Hq Hhs Hok. destruct a as [ec|ec|].
  - (* the waits complete with [ec] *)
    open_world w.
    unfold no_expiry_queued, handshakes_for_handle_init, timer_idle in *.
    simpl in *.
    unfold bind, connection.get_this in Hrun. simpl in Hrun.
    destruct m_timer as [t|]; simpl in Hrun; inversion Hrun; subst; simpl.
    + split; [|split; [exact Hhs|split; [reflexivity|]]].
      * intros cb Hin. apply in_app_or in Hin. destruct Hin as [Hin|Hin].
        -- exact (Hq cb Hin).
        -- destruct Hok as [Hne|Hidle].
           ++ apply in_completed in Hin. subst ec. congruence.
           ++ rewrite Hidle in Hin. exact Hin.
      * apply quietly_same_trace. reflexivity.
    + split; [exact Hq|]. split; [exact Hhs|].
      split; [trivial|apply quietly_refl].
  - (* the handshake resolves with [ec] *)
    open_world w.
    unfold no_expiry_queued, handshakes_for_handle_init, timer_idle in *.
    simpl in *.
    unfold bind, connection.get_this in Hrun. simpl in Hrun.
    destruct m_socket as [s|]; simpl in Hrun.
    + destruct (sk_handshakes s) as [|[ty h] rest] eqn:Hpending;
        simpl in Hrun; inversion Hrun; subst; simpl.
      * split; [exact Hq|]. split; [rewrite Hpending; exact Hhs|].
        split; [trivial|apply quietly_refl].
      * split; [|split; [|split; [trivial|]]].
        -- intros cb Hin. apply in_app_or in Hin.
           destruct Hin as [Hin|[Heq|[]]]; [exact (Hq cb Hin)|].
           destruct (Hhs ty h (or_introl eq_refl)) as [cb' ->].
           discriminate.
        -- intros ty' h' Hin. apply (Hhs ty' h'). right. exact Hin.
        -- apply quietly_same_trace. reflexivity.
    + inversion Hrun; subst.
      split; [exact Hq|]. split; [exact Hhs|].
      split; [trivial|apply quietly_refl].
  - (* the oldest ready handler runs *)
    simpl in Hrun.
    destruct (ready (connection.io w)) as [|[h ec] rest] eqn:Hready.
    + inversion Hrun; subst.
      split; [exact Hq|]. split; [exact Hhs|].
      split; [trivial|apply quietly_refl].
    + assert (Hrest : forall cb, ~ In (bind_handle_timeout cb, 0) rest).
      { intros cb Hin. apply (Hq cb). rewrite Hready. right. exact Hin. }
      destruct h as [cb|cb]; simpl in Hrun.
      * (* handle_timeout *)
        assert (Hne : ec <> 0).
        { intros ->. apply (Hq cb). rewrite Hready. left. reflexivity. }
        match type of Hrun with
        | connection.handle_timeout _ _ ?w0 = _ =>
            destruct (handle_timeout_returns w0 cb ec)
              as (w'' & Hrun' & Hthis & Hrdy & Hquiet)
        end.
        rewrite Hrun' in Hrun. inversion Hrun; subst w''. clear Hrun.
        simpl in *.
        unfold no_expiry_queued, handshakes_for_handle_init, timer_idle.
        rewrite Hthis, Hrdy.
        split; [exact Hrest|]. split; [exact Hhs|]. split; [trivial|].
        destruct (Hquiet Hne) as (evs & Htr & Hevs).
        exists evs. split; assumption.
      * (* handle_init *)
        apply handle_init_returns in Hrun.
        destruct Hrun as (t & Ht & Hthis & Hrdy & Htr). simpl in *.
        unfold no_expiry_queued, handshakes_for_handle_init, timer_idle.
        rewrite Hthis, Hrdy. simpl.
        split; [|split; [exact Hhs|split; [reflexivity|]]].
        -- intros cb' Hin. apply in_app_or in Hin.
           destruct Hin as [Hin|Hin]; [exact (Hrest cb' Hin)|].
           apply in_aborted in Hin. discriminate.
        -- eexists. split; [exact Htr|].
           apply (not_timeout_reported_one _ _ [ev_cancel]);
             [reflexivity|].
           destruct (ec =? 0); discriminate.
Qed.

(** A schedule during which the deadline does not elapse reports no
    timeout. *)
Lemma run_deadline_free (sched : list reactor.action) (w w' : connection.world) :
  reactor.run sched w = Ok (tt, w') ->
  deadline_free sched ->
  no_expiry_queued w ->
  handshakes_for_handle_init w ->
  no_expiry_queued w' /\ handshakes_for_handle_init w' /\ quietly w w'.
Proof.
  revert w. induction sched as [|a sched IH]; intros w Hrun Hfree Hq Hhs.
  - inversion Hrun; subst. repeat split; try assumption. apply quietly_refl.
  - simpl in Hrun. unfold bind in Hrun.
    destruct (reactor.step a w) as [[[] w1]|] eqn:Hstep; [|discriminate].
    assert (Ha : a <> reactor.wait_completes 0).
    { intros ->. apply Hfree. left. reflexivity. }
    destruct (step_quiet a w w1 Hstep Hq Hhs (or_introl Ha))
      as (Hq1 & Hhs1 & _ & Hquiet1).
    destruct (IH w1 Hrun) as (Hq' & Hhs' & Hquiet'); try assumption.
    { intros Hin. apply Hfree. right. exact Hin. }
    repeat split; try assumption.
    exact (quietly_trans _ _ _ Hquiet1 Hquiet').
Qed.

(** Once the timer is idle, no schedule whatever reports a timeout. *)
Lemma run_timer_idle (sched : list reactor.action) (w w' : connection.world) :
  reactor.run sched w = Ok (tt, w') ->
  timer_idle w ->
  no_expiry_queued w ->
  handshakes_for_handle_init w ->
  timer_idle w' /\ quietly w w'.
Proof.
  revert w. induction sched as [|a sched IH]; intros w Hrun Hidle Hq Hhs.
  - inversion Hrun; subst. split; [assumption|apply quietly_refl].
  - simpl in Hrun. unfold bind in Hrun.
    destruct (reactor.step a w) as [[[] w1]|] eqn:Hstep; [|discriminate].
    destruct (step_quiet a w w1 Hstep Hq Hhs (or_intror Hidle))
      as (Hq1 & Hhs1 & Hidle1 & Hquiet1).
    destruct (IH w1 Hrun (Hidle1 Hidle) Hq1 Hhs1) as (Hidle' & Hquiet').
    split; [assumption|].
    exact (quietly_trans _ _ _ Hquiet1 Hquiet').
Qed.

(** X14: [handle_timeout] called with [operation_aborted] does nothing.  And
    take a connection with a socket and a timer, on a reactor that holds no
    completion of an elapsed deadline and no handshake of another origin,
    let [init] start an attempt, and let the reactor work in any way in which
    the deadline does not elapse, until [handle_init] is the next handler to
    run, with whatever error code.  Running it cancels the timer: the timer
    has no wait left, the waits it had are queued with [operation_aborted],
    and the callback has been given success or [pass_through].  From there
    on, whatever the reactor does, the events since the attempt began never
    include a callback invoked with [tls_handshake_timeout]. *)
Theorem handshake_before_deadline_never_times_out :
  (forall w callback,
     connection.handle_timeout callback operation_aborted w = Ok (tt, w))
  /\ forall (w w1 wa wb w' : connection.world) (s : socket_type)
            (t : deadline_timer) (callback : init_handler)
            (before after : list reactor.action) (error : boost_error)
            (queued : list (completion_handler * boost_error)),
       connection.m_socket (connection.this w) = Some s ->
       connection.m_timer (connection.this w) = Some t ->
       no_expiry_queued w ->
       handshakes_for_handle_init w ->
       connection.init callback w = Ok (tt, w1) ->
       deadline_free before ->
       reactor.run before w1 = Ok (tt, wa) ->
       ready (connection.io wa) = (bind_handle_init callback, error) :: queued ->
       reactor.step reactor.run_one wa = Ok (tt, wb) ->
       reactor.run after wb = Ok (tt, w') ->
       (exists ta,
          connection.m_timer (connection.this wa) = Some ta
          /\ connection.m_timer (connection.this wb)
               = Some (reactor.no_waits ta)
          /\ ready (connection.io wb) = queued ++ asio.aborted (tm_waits ta)
          /\ trace (connection.io wb)
               = trace (connection.io wa)
                   ++ [ev_cancel;
                       ev_callback callback
                         (if error =? 0 then lib.no_error
                          else make_error socket.error.pass_through)])
       /\ timer_idle wb
       /\ quietly w w'.
Proof.
  split; [intros; apply handle_timeout_aborted|].
  intros w w1 wa wb w' s t callback before after error queued
    Hs Ht Hq Hhs Hinit Hfree Hbefore Hnext Hstep Hafter.
  (* the attempt starts quietly *)
  assert (H1 : no_expiry_queued w1 /\ handshakes_for_handle_init w1
               /\ quietly w w1).
  { rewrite (init_bound w s t callback Hs Ht) in Hinit.
    inversion Hinit; subst w1; clear Hinit.
    unfold no_expiry_queued, handshakes_for_handle_init, quietly in *.
    rewrite Hs in Hhs. simpl. split; [|split].
    - intros cb Hin. apply in_app_or in Hin.
      destruct Hin as [Hin|Hin]; [exact (Hq cb Hin)|].
      apply in_aborted in Hin. discriminate.
    - intros ty h Hin. apply in_app_or in Hin. destruct Hin as [Hin|Hin].
      + destruct (connection.m_socket_init_handler (connection.this w));
          exact (Hhs ty h Hin).
      + destruct Hin as [Heq|[]]. inversion Heq. eexists. reflexivity.
    - eexists. split; [reflexivity|].
      intros [cb Hin]. rewrite callbacks_app in Hin.
      destruct (connection.m_socket_init_handler (connection.this w));
        exact Hin. }
  destruct H1 as (Hq1 & Hhs1 & Hquiet1).
  (* the reactor works, the deadline not elapsing *)
  destruct (run_deadline_free before w1 wa Hbefore Hfree Hq1 Hhs1)
    as (Hqa & Hhsa & Hquieta).
  (* handle_init runs *)
  assert (Hrun_one : reactor.run_one <> reactor.wait_completes 0)
    by discriminate.
  destruct (step_quiet _ wa wb Hstep Hqa Hhsa (or_introl Hrun_one))
    as (Hqb & Hhsb & _ & Hquietb).
  simpl in Hstep. rewrite Hnext in Hstep. simpl in Hstep.
  apply handle_init_returns in Hstep.
  destruct Hstep as (ta & Hta & Hthis & Hrdy & Htr). simpl in *.
  assert (Hidle : timer_idle wb).
  { unfold timer_idle. rewrite Hthis. reflexivity. }
  split; [|split; [exact Hidle|]].
  - exists ta. rewrite Hthis. repeat split; assumption.
  - destruct (run_timer_idle after wb w' Hafter Hidle Hqb Hhsb)
      as (_ & Hquiet').
    exact (quietly_trans _ _ _ Hquiet1
             (quietly_trans _ _ _ Hquieta
                (quietly_trans _ _ _ Hquietb Hquiet'))).
Qed.

Lemma handshake_before_deadline_never_times_out_witness :
  callbacks (trace (connection.io sample_settled)) = [(9%nat, lib.no_error)]
  /\ timer_idle sample_established
  /\ quietly sample_bound sample_settled.
Proof.
  split; [reflexivity|].
  refine (proj2 (proj2 handshake_before_deadline_never_times_out
            sample_bound sample_started sample_resolved sample_established
            sample_settled (asio.new_socket 1%nat 7%nat)
            (asio.new_timer 1%nat) 9%nat
            [reactor.handshake_resolves 0]
            [reactor.run_one; reactor.wait_completes 0; reactor.run_one]
            0 [] eq_refl eq_refl _ _ _ _ _ _ _ _)).
  - intros cb [].
  - intros ty h [].
  - vm_compute; reflexivity.
  - intros [Heq|[]]. discriminate.
  - vm_compute; reflexivity.
  - vm_compute; reflexivity.
  - vm_compute; reflexivity.
  - vm_compute; reflexivity.
Defined.

(** C4: a handshake that resolves before the deadline does not always keep
    the timeout from being reported.  On the sample connection, [init]
    starts an attempt for callback 9; the handshake succeeds, and before
    [handle_init] has run the deadline elapses, so that the wait's
    continuation is ready with the success code.  [handle_init] runs: it
    cancels the timer, which has no wait left to abort, and invokes the
    callback with success.  [handle_timeout] runs next, with the success code
    and not with [operation_aborted], and invokes the callback again, with
    [tls_handshake_timeout]. *)
Theorem handshake_resolved_before_deadline_still_times_out :
  (connection.init 9%nat ;;
   reactor.run [reactor.handshake_resolves 0; reactor.wait_completes 0])
    sample_bound
    = Ok (tt, sample_resolved_expired)
  /\ ready (connection.io sample_resolved_expired)
     = [(bind_handle_init 9%nat, 0); (bind_handle_timeout 9%nat, 0)]
  /\ reactor.step reactor.run_one sample_resolved_expired
     = Ok (tt, sample_established_late)
  /\ trace (connection.io sample_established_late)
     = trace (connection.io sample_resolved_expired)
         ++ [ev_cancel; ev_callback 9%nat lib.no_error]
  /\ timer_idle sample_established_late
  /\ ready (connection.io sample_established_late)
     = [(bind_handle_timeout 9%nat, 0)]
  /\ reactor.step reactor.run_one sample_established_late
     = Ok (tt, sample_timed_out_late)
  /\ reports 9%nat (trace (connection.io sample_timed_out_late))
     = [lib.no_error; make_error socket.error.tls_handshake_timeout]
  /\ timeout_reported (trace (connection.io sample_timed_out_late))
  /\ ~ timeout_reported (trace (connection.io sample_bound))
  /\ ready (connection.io sample_timed_out_late) = [].
Proof.
  split; [vm_compute; reflexivity|].
  split; [vm_compute; reflexivity|].
  split; [vm_compute; reflexivity|].
  split; [vm_compute; reflexivity|].
  split; [vm_compute; reflexivity|].
  split; [vm_compute; reflexivity|].
  split; [vm_compute; reflexivity|].
  split; [vm_compute; reflexivity|].
  split; [exists 9%nat; vm_compute; tauto|].
  split; [intros [cb Hin]; exact Hin|].
  vm_compute; reflexivity.
Qed.

(** When the deadline elapses first, the callback is invoked twice: by
    [handle_timeout] with [tls_handshake_timeout], and again by
    [handle_init] when the handshake resolves, with success or
    [pass_through]. *)
Lemma deadline_first_calls_back_twice
    (w : connection.world) (s : socket_type) (t : deadline_timer)
    (callback : init_handler) (error : boost_error) :
  connection.m_socket (connection.this w) = Some s ->
  connection.m_timer (connection.this w) = Some t ->
  sk_handshakes s = [] ->
  tm_waits t = [] ->
  ready (connection.io w) = [] ->
  exists w',
    (connection.init callback ;;
     reactor.run [reactor.wait_completes 0; reactor.run_one;
                  reactor.handshake_resolves error; reactor.run_one]) w
      = Ok (tt, w')
    /\ callbacks (trace (connection.io w'))
       = callbacks (trace (connection.io w))
           ++ [(callback, make_error socket.error.tls_handshake_timeout);
               (callback, if error =? 0 then lib.no_error
                          else make_error socket.error.pass_through)]
    /\ ready (connection.io w') = []
    /\ timer_idle w'.
Proof.
  intros Hs Ht Hhs Hwaits Hready.
  unfold bind at 1. rewrite (init_bound w s t callback Hs Ht).
  open_world w. destruct s, t. simpl in *. subst.
  destruct m_socket_init_handler as [socket_init|]; run_cpp;
    destruct (error =? 0); run_cpp;
    (eexists; split; [reflexivity|]); simpl;
    rewrite !callbacks_app; simpl; rewrite ?app_nil_r, <- ?app_assoc;
    repeat split; reflexivity.
Qed.

(** When the handshake resolves first, whatever its result, the callback is
    invoked once, with success or [pass_through]; the cancelled wait is then
    delivered with [operation_aborted] and adds nothing. *)
Lemma handshake_first_calls_back_once
    (w : connection.world) (s : socket_type) (t : deadline_timer)
    (callback : init_handler) (error : boost_error) :
  connection.m_socket (connection.this w) = Some s ->
  connection.m_timer (connection.this w) = Some t ->
  sk_handshakes s = [] ->
  tm_waits t = [] ->
  ready (connection.io w) = [] ->
  exists w',
    (connection.init callback ;;
     reactor.run [reactor.handshake_resolves error; reactor.run_one;
                  reactor.run_one]) w
      = Ok (tt, w')
    /\ callbacks (trace (connection.io w'))
       = callbacks (trace (connection.io w))
           ++ [(callback, if error =? 0 then lib.no_error
                          else make_error socket.error.pass_through)]
    /\ ready (connection.io w') = []
    /\ timer_idle w'.
Proof.
  intros Hs Ht Hhs Hwaits Hready.
  unfold bind at 1. rewrite (init_bound w s t callback Hs Ht).
  open_world w. destruct s, t. simpl in *. subst.
  destruct m_socket_init_handler as [socket_init|]; run_cpp;
    destruct (error =? 0); run_cpp;
    (eexists; split; [reflexivity|]); simpl;
    rewrite !callbacks_app; simpl; rewrite ?app_nil_r, <- ?app_assoc;
    repeat split; reflexivity.
Qed.

(** C1: the callback is not always invoked exactly once.  On the sample
    connection, [init] starts an attempt for callback 9; the deadline elapses
    and [handle_timeout] runs, which invokes the callback with
    [tls_handshake_timeout]; the handshake then succeeds and [handle_init]
    runs, which invokes the same callback a second time, with success.
    Nothing is left queued or outstanding afterwards: the attempt ends with
    two invocations. *)
Theorem handshake_after_timeout_calls_back_again :
  (connection.init 9%nat ;;
   reactor.run [reactor.wait_completes 0; reactor.run_one]) sample_bound
    = Ok (tt, sample_timed_out)
  /\ reports 9%nat (trace (connection.io sample_timed_out))
     = [make_error socket.error.tls_handshake_timeout]
  /\ reactor.run [reactor.handshake_resolves 0; reactor.run_one]
       sample_timed_out
     = Ok (tt, sample_resolved_late)
  /\ reports 9%nat (trace (connection.io sample_resolved_late))
     = [make_error socket.error.tls_handshake_timeout; lib.no_error]
  /\ ready (connection.io sample_resolved_late) = []
  /\ timer_idle sample_resolved_late.
Proof.
  repeat split; vm_compute; reflexivity.
Qed.

(** * Further properties *)

(** ** [init_asio], all outcomes *)

(** X1: what [init_asio] answers is decided by the tls-init handler, the
    handle and the service pointer alone.  It returns
    [missing_tls_init_handler] exactly when no handler is set,
    [invalid_tls_context] exactly when the handler returns null for the
    connection's handle, success exactly when the handler returns a context
    and the service pointer is not null, and it dereferences a null pointer
    exactly when the handler returns a context and the service pointer is
    null.  It never returns [tls_handshake_timeout] or [pass_through]. *)
Theorem init_asio_outcomes
    (w : connection.world) (service : io_service_ptr) (is_server : bool) :
  let c := connection.this w in
  let run := connection.init_asio service is_server w in
  ((exists w', run = Ok (make_error socket.error.missing_tls_init_handler, w'))
    <-> connection.m_tls_init_handler c = None)
  /\ ((exists w', run = Ok (make_error socket.error.invalid_tls_context, w'))
      <-> exists tls_init,
            connection.m_tls_init_handler c = Some tls_init
            /\ tls_init (connection.m_hdl c) = None)
  /\ ((exists w', run = Ok (lib.no_error, w'))
      <-> exists tls_init ctx sv,
            connection.m_tls_init_handler c = Some tls_init
            /\ tls_init (connection.m_hdl c) = Some ctx
            /\ service = Some sv)
  /\ (run = NullDeref
      <-> exists tls_init ctx,
            connection.m_tls_init_handler c = Some tls_init
            /\ tls_init (connection.m_hdl c) = Some ctx
            /\ service = None)
  /\ (forall w', run
                 <> Ok (make_error socket.error.tls_handshake_timeout, w'))
  /\ (forall w', run <> Ok (make_error socket.error.pass_through, w')).
Proof.
  intros c run. subst c run. open_world w.
  unfold connection.init_asio, bind, connection.cout, connection.emit,
    connection.get_this, connection.modify_this. simpl.
  destruct m_tls_init_handler as [tls_init|]; simpl.
  - destruct (tls_init m_hdl) as [ctx|] eqn:Hctx; simpl.
    + destruct service as [sv|]; simpl.
      * repeat split; try (intros [w' Hrun]; discriminate);
          try (intros (? & Heq & ?); congruence);
          try (intros (? & ? & Heq & ?); congruence);
          try discriminate.
        -- intros _. exists tls_init, ctx, sv. repeat split.
           exact Hctx.
        -- intros _. eexists. reflexivity.
        -- intros (? & ? & _ & _ & Heq). discriminate.
      * repeat split; try (intros [w' Hrun]; discriminate);
          try (intros (? & Heq & ?); congruence);
          try (intros (? & ? & ? & _ & _ & Heq); discriminate);
          try discriminate.
        intros _. exists tls_init, ctx. repeat split. exact Hctx.
    + repeat split; try (intros [w' Hrun]; discriminate);
        try (intros (? & ? & ? & Heq & Hc & _); congruence);
        try (intros (? & ? & Heq & Hc & _); congruence);
        try discriminate.
      * intros _. exists tls_init. split; [reflexivity|exact Hctx].
      * intros _. eexists. reflexivity.
  - repeat split; try (intros [w' Hrun]; discriminate);
      try (intros (? & Heq & ?); discriminate);
      try (intros (? & ? & Heq & ?); discriminate);
      try (intros (? & ? & ? & Heq & ?); discriminate);
      try discriminate.
    intros _. eexists. reflexivity.
Qed.

Lemma unbound_no_timer (w : connection.world) :
  unbound w -> connection.m_timer (connection.this w) = None.
Proof.
  induction 1 as [ | w hdl w' _ IH Hrun | w h w' _ IH Hrun
                 | w h w' _ IH Hrun | w sv srv e w' _ IH Hrun ].
  - reflexivity.
  - inversion Hrun; subst; exact IH.
  - inversion Hrun; subst; exact IH.
  - inversion Hrun; subst; exact IH.
  - open_world w. subst.
    unfold connection.init_asio, bind, connection.cout, connection.emit,
      connection.get_this, connection.modify_this in Hrun. simpl in Hrun.
    destruct m_tls_init_handler as [tls_init|]; simpl in Hrun.
    + destruct (tls_init m_hdl) as [ctx|]; simpl in Hrun.
      * destruct sv; simpl in Hrun; discriminate.
      * inversion Hrun; subst; reflexivity.
    + inversion Hrun; subst; reflexivity.
Qed.

(** X2: the first successful [init_asio].  On a connection on which
    [init_asio] has not succeeded before, with a tls-init handler that
    returns a context for the connection's handle and a service pointer that
    is not null, [init_asio] returns success.  It has called the tls-init
    handler once, with the handle, and no other handler; the connection now
    holds that context, a stream built on the service and the context with
    nothing set on its raw socket and no handshake outstanding, a timer on
    the service with no wait outstanding, the service pointer and the role;
    its handle and handlers are as before, and so is the reactor's queue. *)
Theorem init_asio_first_bind
    (w : connection.world) (sv : nat) (is_server : bool)
    (tls_init : connection_hdl -> context_ptr) (ctx : ssl_context) :
  unbound w ->
  connection.m_tls_init_handler (connection.this w) = Some tls_init ->
  tls_init (connection.m_hdl (connection.this w)) = Some ctx ->
  exists w1,
    connection.init_asio (Some sv) is_server w = Ok (lib.no_error, w1)
    /\ connection.this w1
       = {| connection.m_io_service := Some sv;
            connection.m_context := Some ctx;
            connection.m_socket :=
              Some {| sk_service := sv; sk_context := ctx;
                      sk_lowest_layer := []; sk_handshakes := [] |};
            connection.m_timer :=
              Some {| tm_service := sv; tm_expiry := 0; tm_waits := [] |};
            connection.m_is_server := is_server;
            connection.m_hdl := connection.m_hdl (connection.this w);
            connection.m_socket_init_handler :=
              connection.m_socket_init_handler (connection.this w);
            connection.m_tls_init_handler := Some tls_init |}
    /\ ready (connection.io w1) = ready (connection.io w)
    /\ trace (connection.io w1)
       = trace (connection.io w)
           ++ [ev_cout "transport::security::tls_socket::init_asio";
               ev_tls_init (connection.m_hdl (connection.this w))]
    /\ (ready (connection.io w) = [] -> fresh w1).
Proof.
  intros _ Hh Hctx. open_world w. subst.
  unfold connection.init_asio, bind, connection.cout, connection.emit,
    connection.get_this, connection.modify_this. simpl.
  rewrite Hctx. simpl.
  eexists. split; [reflexivity|]. simpl.
  rewrite <- app_assoc. repeat split.
  intros ->. unfold fresh. simpl. eexists. eexists. repeat split.
Qed.

Lemma init_asio_first_bind_witness :
  exists w1,
    connection.init_asio (Some 1%nat) true
      {| connection.this :=
           connection.set_m_tls_init_handler (Some sample_tls_init)
             (connection.constructed None false);
         connection.io :=
           {| ready := [];
              trace :=
                [ev_cout
                   "transport::asio::tls_socket::connection constructor"]
           |} |}
      = Ok (lib.no_error, w1)
    /\ connection.m_context (connection.this w1) = Some 7%nat
    /\ fresh w1.
Proof.
  destruct (init_asio_first_bind
              {| connection.this :=
                   connection.set_m_tls_init_handler (Some sample_tls_init)
                     (connection.constructed None false);
                 connection.io :=
                   {| ready := [];
                      trace :=
                        [ev_cout
                           "transport::asio::tls_socket::connection constructor"]
                   |} |}
              1%nat true sample_tls_init 7%nat
              (unbound_set_tls_init_handler
                 (connection.connection None false idle_io)
                 (Some sample_tls_init) _
                 (unbound_constructed None false idle_io) eq_refl)
              eq_refl eq_refl)
    as (w1 & Hrun & Hthis & _ & _ & Hfresh).
  exists w1. split; [exact Hrun|]. split.
  - rewrite Hthis. reflexivity.
  - apply Hfresh. reflexivity.
Defined.

(** ** Calls before [init_asio] *)

(** X4: on a connection on which [init_asio] has not succeeded, [init],
    [handle_init] and [shutdown] each dereference a null pointer (the timer
    or the socket), whatever their arguments and whatever handlers are set;
    [handle_timeout], which touches neither, returns. *)
Theorem calls_before_init_asio_dereference_null (w : connection.world) :
  unbound w ->
  (forall callback, connection.init callback w = NullDeref)
  /\ (forall callback error,
        connection.handle_init callback error w = NullDeref)
  /\ (forall close_result, connection.shutdown close_result w = NullDeref)
  /\ (forall callback error,
        exists w', connection.handle_timeout callback error w = Ok (tt, w')).
Proof.
  intros Hu.
  pose proof (unbound_no_socket w Hu) as Hs.
  pose proof (unbound_no_timer w Hu) as Ht.
  open_world w. subst. split; [|split; [|split]].
  - intros callback. destruct m_socket_init_handler; reflexivity.
  - intros callback error. reflexivity.
  - intros close_result. reflexivity.
  - intros callback error.
    destruct (handle_timeout_returns
                {| connection.this :=
                     {| connection.m_io_service := m_io_service;
                        connection.m_context := m_context;
                        connection.m_socket := None;
                        connection.m_timer := None;
                        connection.m_is_server := m_is_server;
                        connection.m_hdl := m_hdl;
                        connection.m_socket_init_handler :=
                          m_socket_init_handler;
                        connection.m_tls_init_handler := m_tls_init_handler |};
                   connection.io := {| ready := ready0; trace := trace0 |} |}
                callback error) as (w' & Hrun & _).
    exists w'. exact Hrun.
Qed.

Lemma calls_before_init_asio_dereference_null_witness :
  connection.init 9%nat (connection.connection None false idle_io)
    = NullDeref
  /\ connection.shutdown 0 (connection.connection None false idle_io)
     = NullDeref.
Proof.
  pose proof (calls_before_init_asio_dereference_null
                (connection.connection None false idle_io)
                (unbound_constructed None false idle_io))
    as (Hinit & _ & Hshut & _).
  split; [apply Hinit|apply Hshut].
Defined.

(** ** From [init_asio] to [init] *)

(** X3: after a successful [init_asio], [get_raw_socket] returns a raw
    socket with nothing set on it, and changes nothing.  [init] then returns,
    and afterwards [get_raw_socket] returns what the socket-init handler made
    of that raw socket when it was called with the connection's handle (the
    untouched raw socket when no such handler is set), again changing
    nothing; [get_socket] returns a stream on the same service and
    context. *)
Theorem raw_socket_shows_socket_init_settings
    (w w1 : connection.world) (service : io_service_ptr) (is_server : bool)
    (callback : init_handler) :
  connection.init_asio service is_server w = Ok (lib.no_error, w1) ->
  connection.get_raw_socket w1 = Ok ([], w1)
  /\ exists w2 s2,
       connection.init callback w1 = Ok (tt, w2)
       /\ connection.get_raw_socket w2
          = Ok (match connection.m_socket_init_handler (connection.this w)
                with
                | Some socket_init =>
                    socket_init (connection.m_hdl (connection.this w)) []
                | None => []
                end, w2)
       /\ connection.get_socket w2 = Ok (s2, w2)
       /\ Some (sk_service s2) = service
       /\ Some (sk_context s2) = connection.m_context (connection.this w1).
Proof.
  intros Hrun.
  destruct (init_asio_success _ _ _ _ Hrun)
    as (tls_init & ctx & sv & _ & _ & -> & Hthis & _).
  assert (Hs : connection.m_socket (connection.this w1)
               = Some (asio.new_socket sv ctx))
    by (rewrite Hthis; reflexivity).
  assert (Ht : connection.m_timer (connection.this w1)
               = Some (asio.new_timer sv))
    by (rewrite Hthis; reflexivity).
  split.
  - unfold connection.get_raw_socket, bind, connection.get_this.
    rewrite Hs. reflexivity.
  - pose proof (init_bound w1 _ _ callback Hs Ht) as Hinit.
    cbv zeta in Hinit. rewrite Hthis in Hinit. simpl in Hinit.
    rewrite Hthis. simpl.
    destruct (connection.m_socket_init_handler (connection.this w));
      (eexists; eexists; split; [exact Hinit|]);
      unfold connection.get_raw_socket, connection.get_socket, bind,
        connection.get_this; simpl;
      repeat split; reflexivity.
Qed.

Lemma raw_socket_shows_socket_init_settings_witness :
  exists w1 w2,
    connection.init_asio (Some 1%nat) true sample_configured
      = Ok (lib.no_error, w1)
    /\ connection.init 9%nat w1 = Ok (tt, w2)
    /\ connection.get_raw_socket w2 = Ok ([(1%nat, 1)], w2).
Proof.
  eexists.
  destruct (raw_socket_shows_socket_init_settings
              sample_configured _ (Some 1%nat) true 9%nat eq_refl)
    as (_ & w2 & s2 & Hinit & Hraw & _).
  exists w2. split; [reflexivity|]. split; [exact Hinit|exact Hraw].
Defined.

(** X5: the handle given to [set_handle] is the one both handlers see.
    Whatever handle the connection had, after [set_handle hdl] a run of
    [init_asio] and [init] calls the tls-init handler with [hdl], and then
    the socket-init handler, if one is set, with [hdl] and the new raw
    socket; the context kept is the one the tls-init handler returned for
    [hdl]. *)
Theorem handlers_are_called_with_the_handle_set
    (w : connection.world) (hdl : connection_hdl) (sv : nat)
    (is_server : bool) (tls_init : connection_hdl -> context_ptr)
    (ctx : ssl_context) (callback : init_handler) :
  connection.m_tls_init_handler (connection.this w) = Some tls_init ->
  tls_init hdl = Some ctx ->
  exists w2,
    (connection.set_handle hdl ;;
     connection.init_asio (Some sv) is_server ;;
     connection.init callback) w = Ok (tt, w2)
    /\ connection.m_hdl (connection.this w2) = hdl
    /\ connection.m_context (connection.this w2) = Some ctx
    /\ trace (connection.io w2)
       = trace (connection.io w)
           ++ [ev_cout "transport::security::tls_socket::init_asio";
               ev_tls_init hdl]
           ++ match connection.m_socket_init_handler (connection.this w) with
              | Some _ => [ev_socket_init hdl []]
              | None => []
              end
           ++ [ev_expires_from_now 5000;
               ev_async_wait (bind_handle_timeout callback);
               ev_async_handshake (if is_server then server else client)
                 (bind_handle_init callback)].
Proof.
  intros Hh Hctx. open_world w. subst.
  unfold bind at 1. unfold connection.set_handle, connection.modify_this.
  simpl. unfold bind at 1.
  unfold connection.init_asio, bind, connection.cout, connection.emit,
    connection.get_this, connection.modify_this. simpl.
  rewrite Hctx. simpl.
  match goal with
  | |- exists w2, connection.init _ ?w1 = _ /\ _ =>
      pose proof (init_bound w1 (asio.new_socket sv ctx) (asio.new_timer sv)
                    callback eq_refl eq_refl) as Hinit
  end.
  cbv zeta in Hinit.
  eexists. split; [exact Hinit|]. simpl.
  rewrite <- !app_assoc. simpl.
  destruct m_socket_init_handler, is_server; repeat split; reflexivity.
Qed.

Lemma handlers_are_called_with_the_handle_set_witness :
  exists w2,
    (connection.set_handle (Some 4%nat) ;;
     connection.init_asio (Some 1%nat) false ;;
     connection.init 9%nat) sample_configured = Ok (tt, w2)
    /\ trace (connection.io w2)
       = [ev_cout "transport::security::tls_socket::init_asio";
          ev_tls_init (Some 4%nat);
          ev_socket_init (Some 4%nat) [];
          ev_expires_from_now 5000;
          ev_async_wait (bind_handle_timeout 9%nat);
          ev_async_handshake client (bind_handle_init 9%nat)].
Proof.
  destruct (handlers_are_called_with_the_handle_set
              sample_configured (Some 4%nat) 1%nat false sample_tls_init
              7%nat 9%nat eq_refl eq_refl)
    as (w2 & Hrun & _ & _ & Htrace).
  exists w2. split; [exact Hrun|exact Htrace].
Defined.

(** ** The endpoint and its connections *)

(** What [endpoint::init] does to the world, when the pointer is good. *)
Lemma endpoint_init_live
    (w : endpoint.world) (p : nat) (c : connection.type) :
  endpoint.connections w !! p = Some c ->
  endpoint.init (Some p) w
  = Ok (tt,
        {| endpoint.this := endpoint.this w;
           endpoint.connections :=
             <[p := connection.set_m_tls_init_handler
                      (endpoint.m_tls_init_handler (endpoint.this w))
                      (connection.set_m_socket_init_handler
                         (endpoint.m_socket_init_handler (endpoint.this w))
                         c)]> (endpoint.connections w);
           endpoint.io :=
             {| ready := ready (endpoint.io w);
                trace := trace (endpoint.io w)
                           ++ [ev_cout "transport::asio::tls_socket::init"]
             |} |}).
Proof.
  intros Hp. destruct w as [e conns r]. simpl in *.
  unfold endpoint.init, bind, endpoint.cout, endpoint.get_this,
    endpoint.arrow. simpl. rewrite Hp. simpl.
  rewrite lookup_insert_eq. simpl. rewrite insert_insert_eq. reflexivity.
Qed.

(** X6: a missing tls-init handler is not noticed by the endpoint but by the
    connection.  When the endpoint has no tls-init handler, [endpoint::init]
    on a live connection returns all the same, and a later [init_asio] on
    that connection returns [missing_tls_init_handler], whatever handler the
    connection had of its own before: [endpoint::init] has replaced it by
    the endpoint's empty one. *)
Theorem missing_tls_init_handler_surfaces_in_init_asio
    (w : endpoint.world) (p : nat) (c : connection.type)
    (service : io_service_ptr) (is_server : bool) :
  endpoint.connections w !! p = Some c ->
  endpoint.m_tls_init_handler (endpoint.this w) = None ->
  exists w1 c1,
    endpoint.init (Some p) w = Ok (tt, w1)
    /\ endpoint.connections w1 !! p = Some c1
    /\ connection.m_tls_init_handler c1 = None
    /\ exists cw,
         connection.init_asio service is_server
           {| connection.this := c1; connection.io := endpoint.io w1 |}
         = Ok (make_error socket.error.missing_tls_init_handler, cw).
Proof.
  intros Hp Hnone.
  eexists. eexists. split; [apply (endpoint_init_live w p c Hp)|].
  simpl. split; [apply lookup_insert_eq|].
  rewrite Hnone. split; [reflexivity|].
  destruct c. eexists. reflexivity.
Qed.

Lemma missing_tls_init_handler_surfaces_in_init_asio_witness :
  exists w1 c1 cw,
    endpoint.init (Some 0%nat)
      sample_endpoint_unset
      = Ok (tt, w1)
    /\ endpoint.connections w1 !! 0%nat = Some c1
    /\ connection.init_asio (Some 1%nat) true
         {| connection.this := c1; connection.io := endpoint.io w1 |}
       = Ok (make_error socket.error.missing_tls_init_handler, cw).
Proof.
  destruct (missing_tls_init_handler_surfaces_in_init_asio
              sample_endpoint_unset 0%nat (connection.this sample_configured) (Some 1%nat) true
              ltac:(vm_compute; reflexivity) eq_refl)
    as (w1 & c1 & Hrun & Hp & _ & cw & Hasio).
  exists w1, c1, cw. repeat split; assumption.
Defined.

(** X7: [endpoint::init] returns exactly when its argument points to a
    connection that exists; on a null pointer, or one that points to no
    connection, it dereferences it all the same. *)
Theorem endpoint_init_returns_iff_live
    (w : endpoint.world) (scon : endpoint.socket_con_ptr) :
  ((exists w1, endpoint.init scon w = Ok (tt, w1))
   <-> exists p c, scon = Some p /\ endpoint.connections w !! p = Some c)
  /\ (endpoint.init scon w = NullDeref
      <-> scon = None
          \/ exists p, scon = Some p /\ endpoint.connections w !! p = None).
Proof.
  destruct scon as [p|].
  - destruct (endpoint.connections w !! p) as [c|] eqn:Hp.
    + rewrite (endpoint_init_live w p c Hp). split; split.
      * intros _. exists p, c. split; [reflexivity|exact Hp].
      * intros _. eexists. reflexivity.
      * discriminate.
      * intros [Heq|(q & Heq & Hq)]; [discriminate|].
        inversion Heq; subst. congruence.
    + assert (Hnull : endpoint.init (Some p) w = NullDeref).
      { unfold endpoint.init, bind, endpoint.cout, endpoint.get_this,
          endpoint.arrow. simpl. rewrite Hp. reflexivity. }
      rewrite Hnull. split; split.
      * intros [w1 Hrun]. discriminate.
      * intros (q & c & Heq & Hq). inversion Heq; subst. congruence.
      * intros _. right. exists p. split; [reflexivity|exact Hp].
      * reflexivity.
  - split; split.
    + intros [w1 Hrun]. discriminate.
    + intros (q & c & Heq & _). discriminate.
    + intros _. left. reflexivity.
    + reflexivity.
Qed.

(** X8: the endpoint's handlers as they are when [endpoint::init] runs are
    the ones a connection gets.  After [set_socket_init_handler h1] and
    [set_tls_init_handler h2] on the endpoint, in either order,
    [endpoint::init] gives a live connection exactly [h1] and [h2], whatever
    the endpoint and the connection held before; every other connection is
    left as it was; and running [endpoint::init] on the same connection once
    more changes neither the connections nor the endpoint. *)
Theorem endpoint_init_hands_out_latest_handlers
    (w : endpoint.world) (p : nat) (c : connection.type)
    (h1 : socket_init_handler) (h2 : tls_init_handler) :
  endpoint.connections w !! p = Some c ->
  let c' := connection.set_m_tls_init_handler h2
              (connection.set_m_socket_init_handler h1 c) in
  exists w1 w2,
    (endpoint.set_socket_init_handler h1 ;;
     endpoint.set_tls_init_handler h2 ;;
     endpoint.init (Some p)) w = Ok (tt, w1)
    /\ (endpoint.set_tls_init_handler h2 ;;
        endpoint.set_socket_init_handler h1 ;;
        endpoint.init (Some p)) w = Ok (tt, w1)
    /\ endpoint.connections w1 !! p = Some c'
    /\ (forall q, q <> p ->
          endpoint.connections w1 !! q = endpoint.connections w !! q)
    /\ endpoint.init (Some p) w1 = Ok (tt, w2)
    /\ endpoint.connections w2 = endpoint.connections w1
    /\ endpoint.this w2 = endpoint.this w1.
Proof.
  intros Hp c'. destruct w as [e conns r]. simpl in *.
  cbv beta iota delta
    [bind endpoint.set_socket_init_handler endpoint.set_tls_init_handler
     endpoint.modify_this endpoint.this endpoint.connections endpoint.io
     endpoint.m_socket_init_handler endpoint.m_tls_init_handler].
  match goal with
  | |- exists w1 w2, endpoint.init _ ?wa = _ /\ endpoint.init _ ?wb = _ /\ _ =>
      pose proof (endpoint_init_live wa p c Hp) as Ha;
      pose proof (endpoint_init_live wb p c Hp) as Hb
  end.
  simpl in Ha, Hb.
  eexists. eexists. split; [exact Ha|]. split; [exact Hb|]. simpl.
  split; [apply lookup_insert_eq|].
  split; [intros q Hq; apply lookup_insert_ne; congruence|].
  match goal with
  | |- endpoint.init _ ?w1 = _ /\ _ =>
      pose proof (endpoint_init_live w1 p c' (lookup_insert_eq _ _ _)) as H1
  end.
  simpl in H1. split; [exact H1|]. simpl.
  split; [|reflexivity].
  rewrite insert_insert_eq. reflexivity.
Qed.

Lemma endpoint_init_hands_out_latest_handlers_witness :
  exists w1,
    (endpoint.set_socket_init_handler None ;;
     endpoint.set_tls_init_handler (Some sample_tls_init) ;;
     endpoint.init (Some 0%nat)) sample_endpoint = Ok (tt, w1)
    /\ endpoint.connections w1 !! 0%nat
       = Some (connection.set_m_tls_init_handler (Some sample_tls_init)
                 (connection.constructed None false)).
Proof.
  destruct (endpoint_init_hands_out_latest_handlers
              sample_endpoint 0%nat (connection.constructed None false)
              None (Some sample_tls_init) ltac:(vm_compute; reflexivity))
    as (w1 & w2 & Hrun & _ & Hp & _).
  exists w1. split; [exact Hrun|exact Hp].
Defined.

(** ** More on the race *)

(** X9: when the timer's wait completes first, with any code but
    [operation_aborted], the callback is invoked twice.  On a fresh
    connection, [init] followed by the wait completing, [handle_timeout]
    running, the handshake resolving and [handle_init] running invokes the
    callback first with [tls_handshake_timeout] (or [pass_through], when the
    wait failed) and then again with the handshake's result; nothing is left
    outstanding. *)
Theorem wait_first_calls_back_twice
    (w : connection.world) (callback : init_handler)
    (wait_error handshake_error : boost_error) :
  fresh w ->
  wait_error <> operation_aborted ->
  exists w',
    (connection.init callback ;;
     reactor.run [reactor.wait_completes wait_error; reactor.run_one;
                  reactor.handshake_resolves handshake_error;
                  reactor.run_one]) w
      = Ok (tt, w')
    /\ callbacks (trace (connection.io w'))
       = callbacks (trace (connection.io w))
           ++ [(callback, wait_report wait_error);
               (callback, handshake_report handshake_error)]
    /\ outstanding_handlers w' = [].
Proof.
  intros (s & t & Hs & Ht & Hhs & Hwaits & Hready) Hne.
  unfold bind at 1. rewrite (init_bound w s t callback Hs Ht).
  open_world w. destruct s, t. simpl in *. subst.
  unfold wait_report, handshake_report, outstanding_handlers, timer_waits,
    stream_handshakes.
  destruct m_socket_init_handler as [socket_init|]; run_cpp;
    destruct (Z.eqb_spec wait_error 0) as [->|Hnz]; run_cpp;
    try (destruct (Z.eqb_spec wait_error operation_aborted) as [Heq|_];
         [exfalso; exact (Hne Heq)|]; run_cpp);
    destruct (handshake_error =? 0); run_cpp;
    (eexists; split; [reflexivity|]); simpl;
    rewrite !callbacks_app; simpl; rewrite ?app_nil_r, <- ?app_assoc;
    repeat split; reflexivity.
Qed.

Lemma wait_first_calls_back_twice_witness :
  exists w',
    (connection.init 9%nat ;;
     reactor.run [reactor.wait_completes 5; reactor.run_one;
                  reactor.handshake_resolves 0; reactor.run_one])
      sample_bound
      = Ok (tt, w')
    /\ callbacks (trace (connection.io w'))
       = [(9%nat, make_error socket.error.pass_through);
          (9%nat, lib.no_error)].
Proof.
  destruct (wait_first_calls_back_twice sample_bound 9%nat 5 0)
    as (w' & Hrun & Hcalls & _).
  - exists (asio.new_socket 1%nat 7%nat), (asio.new_timer 1%nat).
    repeat split; reflexivity.
  - discriminate.
  - exists w'. split; [exact Hrun|exact Hcalls].
Defined.

(** X10: cancelling comes too late for a wait that has already completed.
    On a fresh connection, when the handshake resolves and then the deadline
    elapses before [handle_init] has run, [handle_init] finds no wait left
    to cancel and invokes the callback with the handshake's result, and
    [handle_timeout], run next with the success code of the elapsed
    deadline, invokes it a second time, with [tls_handshake_timeout]. *)
Theorem deadline_before_handle_init_runs_calls_back_twice
    (w : connection.world) (callback : init_handler)
    (handshake_error : boost_error) :
  fresh w ->
  exists w',
    (connection.init callback ;;
     reactor.run [reactor.handshake_resolves handshake_error;
                  reactor.wait_completes 0;
                  reactor.run_one; reactor.run_one]) w
      = Ok (tt, w')
    /\ callbacks (trace (connection.io w'))
       = callbacks (trace (connection.io w))
           ++ [(callback, handshake_report handshake_error);
               (callback, make_error socket.error.tls_handshake_timeout)]
    /\ outstanding_handlers w' = [].
Proof.
  intros (s & t & Hs & Ht & Hhs & Hwaits & Hready).
  unfold bind at 1. rewrite (init_bound w s t callback Hs Ht).
  open_world w. destruct s, t. simpl in *. subst.
  unfold handshake_report, outstanding_handlers, timer_waits,
    stream_handshakes.
  destruct m_socket_init_handler as [socket_init|]; run_cpp;
    destruct (handshake_error =? 0); run_cpp;
    (eexists; split; [reflexivity|]); simpl;
    rewrite !callbacks_app; simpl; rewrite ?app_nil_r, <- ?app_assoc;
    repeat split; reflexivity.
Qed.

Lemma deadline_before_handle_init_runs_calls_back_twice_witness :
  exists w',
    (connection.init 9%nat ;;
     reactor.run [reactor.handshake_resolves 0; reactor.wait_completes 0;
                  reactor.run_one; reactor.run_one])
      sample_bound
      = Ok (tt, w')
    /\ callbacks (trace (connection.io w'))
       = [(9%nat, lib.no_error);
          (9%nat, make_error socket.error.tls_handshake_timeout)].
Proof.
  destruct (deadline_before_handle_init_runs_calls_back_twice
              sample_bound 9%nat 0)
    as (w' & Hrun & Hcalls & _).
  - exists (asio.new_socket 1%nat 7%nat), (asio.new_timer 1%nat).
    repeat split; reflexivity.
  - exists w'. split; [exact Hrun|exact Hcalls].
Defined.

Lemma fst_completed (ec : boost_error) (hs : list completion_handler) :
  map fst (asio.completed ec hs) = hs.
Proof.
  unfold asio.completed. induction hs as [|h hs IH]; [reflexivity|].
  simpl. rewrite IH. reflexivity.
Qed.

Lemma fst_aborted (hs : list completion_handler) :
  map fst (asio.aborted hs) = hs.
Proof. apply (fst_completed operation_aborted). Qed.

(** One action of the reactor, accounted for: the continuations owed
    afterwards were owed before, and every callback invoked uses up one of
    them. *)
Lemma step_accounts (a : reactor.action) (w w' : connection.world) :
  reactor.step a w = Ok (tt, w') ->
  exists evs,
    trace (connection.io w') = trace (connection.io w) ++ evs
    /\ (length (callbacks evs) + length (outstanding_handlers w')
        <= length (outstanding_handlers w))%nat
    /\ (forall h, In h (outstanding_handlers w') ->
                  In h (outstanding_handlers w))
    /\ (forall cb ec, In (cb, ec) (callbacks evs) ->
          exists h, In h (outstanding_handlers w) /\ bound_callback h = cb).
Proof.
  intros Hrun. destruct a as [ec|ec|].
  - (* the waits complete *)
    open_world w. unfold bind, connection.get_this in Hrun. simpl in Hrun.
    destruct m_timer as [t|]; simpl in Hrun; inversion Hrun; subst;
      exists []; unfold outstanding_handlers, timer_waits, stream_handshakes;
      simpl; rewrite app_nil_r.
    + rewrite map_app, fst_completed. split; [reflexivity|].
      split; [repeat (rewrite length_app; simpl); lia|].
      split; [|intros cb ec' []].
      intros h. repeat (rewrite in_app_iff; simpl). tauto.
    + split; [reflexivity|]. split; [lia|]. split; [tauto|intros cb ec' []].
  - (* the handshake resolves *)
    open_world w. unfold bind, connection.get_this in Hrun. simpl in Hrun.
    destruct m_socket as [s|]; simpl in Hrun.
    + destruct (sk_handshakes s) as [|[ty h] rest] eqn:Hpending;
        simpl in Hrun; inversion Hrun; subst;
        exists []; unfold outstanding_handlers, timer_waits,
          stream_handshakes; simpl; rewrite app_nil_r, ?Hpending; simpl.
      * split; [reflexivity|]. split; [lia|]. split; [tauto|intros cb ec' []].
      * rewrite map_app. simpl. split; [reflexivity|].
        split; [repeat (rewrite length_app; simpl); lia|].
        split; [|intros cb ec' []].
        intros h'. repeat (rewrite in_app_iff; simpl). tauto.
    + inversion Hrun; subst. exists [].
      rewrite app_nil_r. split; [reflexivity|]. split; [simpl; lia|].
      split; [tauto|intros cb ec' []].
  - (* the oldest ready handler runs *)
    simpl in Hrun.
    destruct (ready (connection.io w)) as [|[h ec] rest] eqn:Hready.
    + inversion Hrun; subst. exists [].
      rewrite app_nil_r. split; [reflexivity|]. split; [simpl; lia|].
      split; [tauto|intros cb ec' []].
    + destruct h as [cb|cb]; simpl in Hrun.
      * (* handle_timeout *)
        open_world w. subst.
        unfold connection.handle_timeout, connection.call, connection.emit,
          ret in Hrun.
        unfold outstanding_handlers, timer_waits, stream_handshakes. simpl.
        destruct (negb (ec =? 0)); [destruct (ec =? operation_aborted)|];
          simpl in Hrun; inversion Hrun; subst; simpl;
          (eexists; split; [try reflexivity; symmetry; apply app_nil_r|]);
          simpl;
          (split; [repeat (rewrite length_app; simpl); lia|]);
          (split; [intros h; repeat (rewrite in_app_iff; simpl); tauto|]);
          intros cb' ec' Hin; try destruct Hin as [Heq|[]]; try easy;
          inversion Heq; subst;
          exists (bind_handle_timeout cb');
          (split; [repeat (rewrite in_app_iff; simpl); tauto|reflexivity]).
      * (* handle_init *)
        apply handle_init_returns in Hrun.
        destruct Hrun as (t & Ht & Hthis & Hrdy & Htr). simpl in *.
        eexists. split; [exact Htr|].
        unfold outstanding_handlers, timer_waits, stream_handshakes.
        rewrite Hthis, Hrdy, Hready, Ht. simpl.
        rewrite map_app, fst_aborted.
        split; [repeat (rewrite length_app; simpl); lia|].
        split; [intros h; repeat (rewrite in_app_iff; simpl); tauto|].
        intros cb' ec' [Heq|[]]. inversion Heq; subst.
        exists (bind_handle_init cb').
        split; [repeat (rewrite in_app_iff; simpl); tauto|reflexivity].
Qed.

(** The same account over a whole schedule. *)
Lemma run_accounts (sched : list reactor.action) (w w' : connection.world) :
  reactor.run sched w = Ok (tt, w') ->
  exists evs,
    trace (connection.io w') = trace (connection.io w) ++ evs
    /\ (length (callbacks evs) + length (outstanding_handlers w')
        <= length (outstanding_handlers w))%nat
    /\ (forall h, In h (outstanding_handlers w') ->
                  In h (outstanding_handlers w))
    /\ (forall cb ec, In (cb, ec) (callbacks evs) ->
          exists h, In h (outstanding_handlers w) /\ bound_callback h = cb).
Proof.
  revert w. induction sched as [|a sched IH]; intros w Hrun.
  - inversion Hrun; subst. exists []. rewrite app_nil_r.
    split; [reflexivity|]. split; [simpl; lia|].
    split; [tauto|intros cb ec []].
  - simpl in Hrun. unfold bind in Hrun.
    destruct (reactor.step a w) as [[[] w1]|] eqn:Hstep; [|discriminate].
    destruct (step_accounts a w w1 Hstep) as (evs1 & Htr1 & Hlen1 & Hin1 & Hcb1).
    destruct (IH w1 Hrun) as (evs2 & Htr2 & Hlen2 & Hin2 & Hcb2).
    exists (evs1 ++ evs2). split; [rewrite Htr2, Htr1; symmetry; apply app_assoc|].
    rewrite callbacks_app, length_app.
    split; [lia|]. split; [auto|].
    intros cb ec Hin. apply in_app_or in Hin. destruct Hin as [Hin|Hin].
    + exact (Hcb1 cb ec Hin).
    + destruct (Hcb2 cb ec Hin) as (h & Hh & Hb). exists h. auto.
Qed.

(** On a connection that has a timer, every action of the reactor returns,
    and the connection keeps its timer. *)
Lemma step_returns (a : reactor.action) (w : connection.world) :
  connection.m_timer (connection.this w) <> None ->
  exists w',
    reactor.step a w = Ok (tt, w')
    /\ connection.m_timer (connection.this w') <> None.
Proof.
  intros Ht. destruct a as [ec|ec|].
  - open_world w. unfold bind, connection.get_this. simpl.
    destruct m_timer as [t|]; [|contradiction].
    eexists. split; [reflexivity|]. discriminate.
  - open_world w. unfold bind, connection.get_this. simpl.
    destruct m_socket as [s|]; [destruct (sk_handshakes s) as [|[ty h] rest]|];
      (eexists; split; [reflexivity|]); exact Ht.
  - simpl. destruct (ready (connection.io w)) as [|[h ec] rest] eqn:Hready.
    + exists w. split; [reflexivity|exact Ht].
    + destruct h as [cb|cb]; simpl.
      * match goal with
        | |- exists w', connection.handle_timeout _ _ ?w0 = _ /\ _ =>
            destruct (handle_timeout_returns w0 cb ec)
              as (w' & Hrun & Hthis & _)
        end.
        exists w'. split; [exact Hrun|]. rewrite Hthis. exact Ht.
      * open_world w. simpl in *.
        destruct m_timer as [t|]; [|contradiction].
        unfold connection.handle_init, connection.timer_cancel, bind,
          connection.get_this. simpl.
        destruct (negb (ec =? 0));
          (eexists; split; [reflexivity|]); discriminate.
Qed.

Lemma run_returns (sched : list reactor.action) (w : connection.world) :
  connection.m_timer (connection.this w) <> None ->
  exists w', reactor.run sched w = Ok (tt, w').
Proof.
  revert w. induction sched as [|a sched IH]; intros w Ht.
  - exists w. reflexivity.
  - destruct (step_returns a w Ht) as (w1 & Hstep & Ht1).
    destruct (IH w1 Ht1) as (w' & Hrun).
    exists w'. simpl. unfold bind. rewrite Hstep. exact Hrun.
Qed.

(** X11: an attempt never invokes the callback more than twice, and never
    another callback.  On a fresh connection, after [init callback], whatever
    the reactor does (waits completing with any code, handshakes resolving
    with any code, handlers run in any number and order), the run returns,
    and the callbacks invoked since [init] are at most two, each of them the
    [callback] given to [init]. *)
Theorem attempt_calls_back_at_most_twice
    (w : connection.world) (callback : init_handler)
    (sched : list reactor.action) :
  fresh w ->
  exists w1 w' evs,
    connection.init callback w = Ok (tt, w1)
    /\ reactor.run sched w1 = Ok (tt, w')
    /\ trace (connection.io w') = trace (connection.io w1) ++ evs
    /\ (length (callbacks evs) <= 2)%nat
    /\ forall cb ec, In (cb, ec) (callbacks evs) -> cb = callback.
Proof.
  intros (s & t & Hs & Ht & Hhs & Hwaits & Hready).
  pose proof (init_bound w s t callback Hs Ht) as Hinit. cbv zeta in Hinit.
  match type of Hinit with
  | _ = Ok (tt, ?w0) => set (w1 := w0) in *
  end.
  assert (Hout : outstanding_handlers w1
                 = [bind_handle_timeout callback; bind_handle_init callback]).
  { subst w1. unfold outstanding_handlers, timer_waits, stream_handshakes.
    simpl. rewrite Hready, Hwaits. simpl.
    destruct (connection.m_socket_init_handler (connection.this w));
      simpl; rewrite Hhs; reflexivity. }
  assert (Ht1 : connection.m_timer (connection.this w1) <> None)
    by (subst w1; discriminate).
  destruct (run_returns sched w1 Ht1) as (w' & Hrun).
  destruct (run_accounts sched w1 w' Hrun) as (evs & Htr & Hlen & _ & Hcb).
  exists w1, w', evs. split; [exact Hinit|]. split; [exact Hrun|].
  split; [exact Htr|]. rewrite Hout in Hlen, Hcb. simpl in Hlen.
  split; [lia|].
  intros cb ec Hin. destruct (Hcb cb ec Hin) as (h & [<-|[<-|[]]] & Hb);
    simpl in Hb; congruence.
Qed.

Lemma attempt_calls_back_at_most_twice_witness :
  exists w1 w' evs,
    connection.init 9%nat sample_bound = Ok (tt, w1)
    /\ reactor.run [reactor.run_one; reactor.wait_completes 0;
                    reactor.wait_completes 3; reactor.handshake_resolves 2;
                    reactor.run_one; reactor.handshake_resolves 0;
                    reactor.run_one; reactor.run_one] w1
       = Ok (tt, w')
    /\ trace (connection.io w') = trace (connection.io w1) ++ evs
    /\ (length (callbacks evs) <= 2)%nat.
Proof.
  destruct (attempt_calls_back_at_most_twice sample_bound 9%nat
              [reactor.run_one; reactor.wait_completes 0;
               reactor.wait_completes 3; reactor.handshake_resolves 2;
               reactor.run_one; reactor.handshake_resolves 0;
               reactor.run_one; reactor.run_one])
    as (w1 & w' & evs & Hinit & Hrun & Htr & Hlen & _).
  - exists (asio.new_socket 1%nat 7%nat), (asio.new_timer 1%nat).
    repeat split; reflexivity.
  - exists w1, w', evs. repeat split; assumption.
Defined.

Lemma ready_handle_inits_app (q1 q2 : list (completion_handler * boost_error)) :
  ready_handle_inits (q1 ++ q2)
  = (ready_handle_inits q1 + ready_handle_inits q2)%nat.
Proof.
  induction q1 as [|[h ec] q1 IH]; [reflexivity|].
  simpl. destruct (is_handle_init h); rewrite IH; reflexivity.
Qed.

Lemma ready_handle_inits_aborted (hs : list completion_handler) :
  (forall h, In h hs -> is_handle_init h = false) ->
  ready_handle_inits (asio.aborted hs) = O.
Proof.
  induction hs as [|h hs IH]; intros Hall; [reflexivity|].
  simpl. rewrite (Hall h (or_introl eq_refl)).
  apply IH. intros h' Hin. apply Hall. right. exact Hin.
Qed.

(** One action other than the wait completing keeps exactly one result
    due. *)
Lemma step_one_result_due
    (a : reactor.action) (w w' : connection.world)
    (callback : init_handler) (base : list event) :
  reactor.step a w = Ok (tt, w') ->
  (forall ec, a <> reactor.wait_completes ec) ->
  one_result_due callback base w ->
  one_result_due callback base w'.
Proof.
  intros Hrun Hfree (evs & Htr & Hab & Hwt & Hhs & Hin & Hcount & Hcb).
  destruct a as [ec|ec|].
  - exfalso. exact (Hfree ec eq_refl).
  - (* the handshake resolves *)
    open_world w. unfold timer_waits, stream_handshakes in *. simpl in *.
    unfold bind, connection.get_this in Hrun. simpl in Hrun.
    destruct m_socket as [s|]; simpl in Hrun.
    + destruct (sk_handshakes s) as [|[ty h] rest] eqn:Hpending;
        simpl in Hrun; inversion Hrun; subst; clear Hrun;
        exists evs; unfold timer_waits, stream_handshakes; simpl.
      * rewrite Hpending. repeat split; try assumption;
          apply (Hcb cb ec0); assumption.
      * simpl in *.
        assert (Hh : h = bind_handle_init callback)
          by (apply Hhs; left; reflexivity).
        subst h.
        split; [reflexivity|]. split.
        { intros cb ec' Hi. apply in_app_or in Hi.
          destruct Hi as [Hi|[Heq|[]]]; [exact (Hab cb ec' Hi)|discriminate]. }
        split; [exact Hwt|]. split.
        { intros h Hi. apply Hhs. right. exact Hi. }
        split.
        { intros cb ec' Hi. apply in_app_or in Hi.
          destruct Hi as [Hi|[Heq|[]]]; [exact (Hin cb ec' Hi)|].
          inversion Heq. reflexivity. }
        split; [rewrite ready_handle_inits_app; simpl; lia|exact Hcb].
    + inversion Hrun; subst. exists evs.
      unfold timer_waits, stream_handshakes. simpl.
      repeat split; try assumption; apply (Hcb cb ec0); assumption.
  - (* the oldest ready handler runs *)
    simpl in Hrun.
    destruct (ready (connection.io w)) as [|[h ec] rest] eqn:Hready.
    + inversion Hrun; subst. exists evs. rewrite Hready.
      repeat split; try assumption; apply (Hcb cb ec); assumption.
    + destruct h as [cb|cb]; simpl in Hrun.
      * (* handle_timeout, with operation_aborted *)
        assert (ec = operation_aborted)
          by (apply (Hab cb); left; reflexivity).
        subst ec. rewrite handle_timeout_aborted in Hrun.
        inversion Hrun; subst; clear Hrun.
        exists evs. unfold timer_waits, stream_handshakes in *. simpl in *.
        split; [exact Htr|]. split.
        { intros cb' ec' Hi. apply (Hab cb' ec'). right. exact Hi. }
        split; [exact Hwt|]. split; [exact Hhs|]. split.
        { intros cb' ec' Hi. apply (Hin cb' ec'). right. exact Hi. }
        split; [exact Hcount|exact Hcb].
      * (* handle_init *)
        assert (cb = callback) by (apply (Hin cb ec); left; reflexivity).
        subst cb.
        apply handle_init_returns in Hrun.
        destruct Hrun as (t & Ht & Hthis & Hrdy & Htr'). simpl in *.
        unfold timer_waits in Hwt. rewrite Ht in Hwt.
        exists (evs ++ [ev_cancel;
                        ev_callback callback
                          (if ec =? 0 then lib.no_error
                           else make_error socket.error.pass_through)]).
        unfold timer_waits, stream_handshakes in *.
        rewrite Hthis, Hrdy. simpl.
        split; [rewrite Htr', Htr; symmetry; apply app_assoc|]. split.
        { intros cb' ec' Hi. apply in_app_or in Hi. destruct Hi as [Hi|Hi].
          - apply (Hab cb' ec'). right. exact Hi.
          - exact (in_aborted _ _ _ Hi). }
        split; [intros h []|]. split; [exact Hhs|]. split.
        { intros cb' ec' Hi. apply in_app_or in Hi. destruct Hi as [Hi|Hi].
          - apply (Hin cb' ec'). right. exact Hi.
          - unfold asio.aborted in Hi. apply in_map_iff in Hi.
            destruct Hi as (h & Heq & Hh). inversion Heq; subst.
            specialize (Hwt _ Hh). discriminate. }
        split.
        { rewrite callbacks_app, length_app, ready_handle_inits_app,
            (ready_handle_inits_aborted _ Hwt). simpl in *. lia. }
        intros cb' ec' Hi. rewrite callbacks_app in Hi.
        apply in_app_or in Hi. destruct Hi as [Hi|[Heq|[]]].
        { exact (Hcb cb' ec' Hi). }
        inversion Heq; subst. split; [reflexivity|].
        destruct (ec =? 0); [left|right]; reflexivity.
Qed.

Lemma run_one_result_due
    (sched : list reactor.action) (w w' : connection.world)
    (callback : init_handler) (base : list event) :
  reactor.run sched w = Ok (tt, w') ->
  wait_free sched ->
  one_result_due callback base w ->
  one_result_due callback base w'.
Proof.
  revert w. induction sched as [|a sched IH]; intros w Hrun Hfree Hinv.
  - inversion Hrun; subst. exact Hinv.
  - simpl in Hrun. unfold bind in Hrun.
    destruct (reactor.step a w) as [[[] w1]|] eqn:Hstep; [|discriminate].
    apply (IH w1 Hrun).
    + intros ec Hin. apply (Hfree ec). right. exact Hin.
    + apply (step_one_result_due a w w1 callback base Hstep); [|exact Hinv].
      intros ec ->. apply (Hfree ec). left. reflexivity.
Qed.

(** X12: as long as the timer's wait does not complete by itself, an attempt
    invokes the callback at most once, and exactly once as soon as the
    handshake's continuation has run.  On a fresh connection, after
    [init callback], let the reactor resolve handshakes with any code and
    run handlers in any number and order, the wait neither expiring nor
    failing.  The run returns; the callbacks invoked since [init] are at
    most one; each is the [callback] given to [init], told success or
    [pass_through]; and when no handshake is outstanding and no
    [handle_init] continuation is ready any more, there is exactly one. *)
Theorem attempt_without_wait_completion_calls_back_once
    (w : connection.world) (callback : init_handler)
    (sched : list reactor.action) :
  fresh w ->
  wait_free sched ->
  exists w1 w' evs,
    connection.init callback w = Ok (tt, w1)
    /\ reactor.run sched w1 = Ok (tt, w')
    /\ trace (connection.io w') = trace (connection.io w1) ++ evs
    /\ (length (callbacks evs) <= 1)%nat
    /\ (forall cb ec, In (cb, ec) (callbacks evs) ->
          cb = callback
          /\ (ec = lib.no_error
              \/ ec = make_error socket.error.pass_through))
    /\ (stream_handshakes w' = [] ->
        ready_handle_inits (ready (connection.io w')) = O ->
        length (callbacks evs) = 1%nat).
Proof.
  intros (s & t & Hs & Ht & Hhs & Hwaits & Hready) Hfree.
  pose proof (init_bound w s t callback Hs Ht) as Hinit. cbv zeta in Hinit.
  match type of Hinit with
  | _ = Ok (tt, ?w0) => set (w1 := w0) in *
  end.
  assert (Hinv : one_result_due callback (trace (connection.io w1)) w1).
  { exists []. subst w1. unfold timer_waits, stream_handshakes. simpl.
    rewrite Hready, Hwaits. simpl.
    assert (Hpending :
      map snd
        (sk_handshakes
           match connection.m_socket_init_handler (connection.this w) with
           | Some socket_init =>
               asio.set_lowest_layer
                 (socket_init (connection.m_hdl (connection.this w))
                    (sk_lowest_layer s)) s
           | None => s
           end ++
         [(if connection.m_is_server (connection.this w)
           then server else client, bind_handle_init callback)])
      = [bind_handle_init callback]).
    { destruct (connection.m_socket_init_handler (connection.this w));
        simpl; rewrite Hhs; reflexivity. }
    rewrite Hpending.
    split; [symmetry; apply app_nil_r|].
    split; [intros cb ec []|].
    split; [intros h [<-|[]]; reflexivity|].
    split; [intros h [<-|[]]; reflexivity|].
    split; [intros cb ec []|].
    split; [reflexivity|intros cb ec []]. }
  assert (Ht1 : connection.m_timer (connection.this w1) <> None)
    by (subst w1; discriminate).
  destruct (run_returns sched w1 Ht1) as (w' & Hrun).
  destruct (run_one_result_due sched w1 w' callback _ Hrun Hfree Hinv)
    as (evs & Htr & _ & _ & _ & _ & Hcount & Hcb).
  exists w1, w', evs. split; [exact Hinit|]. split; [exact Hrun|].
  split; [exact Htr|]. split; [lia|]. split; [exact Hcb|].
  intros Hnone Hzero. rewrite Hnone, Hzero in Hcount. simpl in Hcount. lia.
Qed.

Lemma attempt_without_wait_completion_calls_back_once_witness :
  exists w1 w' evs,
    connection.init 9%nat sample_bound = Ok (tt, w1)
    /\ reactor.run [reactor.run_one; reactor.handshake_resolves 2;
                    reactor.handshake_resolves 0; reactor.run_one;
                    reactor.run_one] w1
       = Ok (tt, w')
    /\ trace (connection.io w') = trace (connection.io w1) ++ evs
    /\ (length (callbacks evs) <= 1)%nat.
Proof.
  destruct (attempt_without_wait_completion_calls_back_once
              sample_bound 9%nat
              [reactor.run_one; reactor.handshake_resolves 2;
               reactor.handshake_resolves 0; reactor.run_one;
               reactor.run_one])
    as (w1 & w' & evs & Hinit & Hrun & Htr & Hlen & _).
  - exists (asio.new_socket 1%nat 7%nat), (asio.new_timer 1%nat).
    repeat split; reflexivity.
  - intros ec Hin. simpl in Hin.
    repeat (destruct Hin as [Hin|Hin]; [discriminate|]). exact Hin.
  - exists w1, w', evs. repeat split; assumption.
Defined.

(** ** Trying [init_asio] again *)

(** A failed [init_asio] changes nothing of the connection but, when the
    handler returned null, its context. *)
Lemma init_asio_failed_keeps
    (w w' : connection.world) (service : io_service_ptr) (is_server : bool)
    (e : socket.error.value) :
  connection.init_asio service is_server w = Ok (lib.socket_error e, w') ->
  connection.m_hdl (connection.this w') = connection.m_hdl (connection.this w)
  /\ connection.m_socket_init_handler (connection.this w')
     = connection.m_socket_init_handler (connection.this w)
  /\ connection.m_socket (connection.this w')
     = connection.m_socket (connection.this w)
  /\ connection.m_timer (connection.this w')
     = connection.m_timer (connection.this w)
  /\ ready (connection.io w') = ready (connection.io w)
  /\ callbacks (trace (connection.io w')) = callbacks (trace (connection.io w)).
Proof.
  intros Hrun. open_world w.
  unfold connection.init_asio, bind, connection.cout, connection.emit,
    connection.get_this, connection.modify_this in Hrun. simpl in Hrun.
  destruct m_tls_init_handler as [tls_init|]; simpl in Hrun.
  - destruct (tls_init m_hdl) as [ctx|]; simpl in Hrun.
    + destruct service; simpl in Hrun; discriminate.
    + inversion Hrun; subst; simpl.
      rewrite <- app_assoc, callbacks_app, app_nil_r. repeat split.
  - inversion Hrun; subst; simpl.
    rewrite <- app_assoc, callbacks_app, app_nil_r. repeat split.
Qed.

(** X13: a failed [init_asio] can be made good.  When [init_asio] has
    returned an error on a connection on which it had not succeeded before
    (no tls-init handler, or a handler that returned null), then setting a
    tls-init handler that returns a context for the connection's handle and
    calling [init_asio] again, with a service pointer that is not null,
    returns success: the connection holds that context, a new stream and a
    new timer with nothing outstanding, and the role of the second call; the
    failed call has invoked no callback and queued nothing. *)
Theorem init_asio_succeeds_after_failure
    (w w1 : connection.world) (service : io_service_ptr) (role1 role2 : bool)
    (e : socket.error.value) (sv : nat)
    (tls_init : connection_hdl -> context_ptr) (ctx : ssl_context) :
  unbound w ->
  connection.init_asio service role1 w = Ok (lib.socket_error e, w1) ->
  tls_init (connection.m_hdl (connection.this w)) = Some ctx ->
  exists w2,
    (connection.set_tls_init_handler (Some tls_init) ;;
     connection.init_asio (Some sv) role2) w1 = Ok (lib.no_error, w2)
    /\ connection.m_context (connection.this w2) = Some ctx
    /\ connection.m_socket (connection.this w2)
       = Some (asio.new_socket sv ctx)
    /\ connection.m_timer (connection.this w2) = Some (asio.new_timer sv)
    /\ connection.m_is_server (connection.this w2) = role2
    /\ ready (connection.io w2) = ready (connection.io w)
    /\ callbacks (trace (connection.io w2))
       = callbacks (trace (connection.io w)).
Proof.
  intros _ Hfail Hctx.
  destruct (init_asio_failed_keeps _ _ _ _ _ Hfail)
    as (Hhdl & _ & _ & _ & Hrdy & Hcalls).
  rewrite <- Hhdl in Hctx. rewrite <- Hrdy, <- Hcalls.
  clear Hfail Hhdl Hrdy Hcalls w.
  open_world w1.
  unfold bind at 1.
  unfold connection.set_tls_init_handler, connection.modify_this. simpl.
  unfold connection.init_asio, bind, connection.cout, connection.emit,
    connection.get_this, connection.modify_this. simpl.
  rewrite Hctx. simpl.
  eexists. split; [reflexivity|]. simpl.
  rewrite <- app_assoc, callbacks_app, app_nil_r. repeat split.
Qed.

Lemma init_asio_succeeds_after_failure_witness :
  exists w1 w2,
    connection.init_asio (Some 1%nat) false
      (connection.connection None false idle_io)
      = Ok (make_error socket.error.missing_tls_init_handler, w1)
    /\ (connection.set_tls_init_handler (Some sample_tls_init) ;;
        connection.init_asio (Some 1%nat) true) w1 = Ok (lib.no_error, w2)
    /\ connection.m_socket (connection.this w2)
       = Some (asio.new_socket 1%nat 7%nat)
    /\ connection.m_is_server (connection.this w2) = true.
Proof.
  eexists.
  destruct (init_asio_succeeds_after_failure
              (connection.connection None false idle_io) _
              (Some 1%nat) false true socket.error.missing_tls_init_handler
              1%nat sample_tls_init 7%nat
              (unbound_constructed None false idle_io) eq_refl eq_refl)
    as (w2 & Hrun & _ & Hs & _ & Hrole & _).
  exists w2. split; [reflexivity|]. repeat split; assumption.
Defined.
